(** * InputToggle: a shallow embedding of [input-toggle.js]

    The library toggles classes and attributes of marked elements from
    the value(s) of the form inputs that share a name.  The embedding
    follows the source function by function, on an explicit model of the
    part of the page the code reads and writes:

    - a page is the list of its elements in document order; an element is
      referred to by its position in that list;
    - an element carries its attributes (a finite map from names to
      strings), its class tokens, what [input.type], [$(input).val()] and
      [:checked] report for it, and the event listeners bound to it;
    - JavaScript values are the inductive [jsval]; a call that throws a
      [TypeError] returns [None].

    The primitives of jQuery are modelled by what they do to that state:
    [attr(name, value)] inserts, [attr(name)] only reads, [removeAttr]
    deletes, [addClass]/[removeClass] work on the class tokens,
    [find('[name=...]')] keeps the elements of the scope whose attribute
    is the one asked for, [off]/[on] edit the listener list.  Class
    tokens are kept apart from the attribute map, and [.data()] is read
    from the attribute each time.

    jQuery and the document do more than that on some names: an
    attribute name with white space is refused or split, an upper-case
    one is lower-cased, a boolean attribute is written with its own name
    for value, [class] is the class list itself, and an input name with
    a quote or a backslash makes another selector.  The properties
    whose content depends on what is written or selected are therefore
    stated for [tame] elements and for input names that are
    [Names.selector_safe], and speak of the attributes, the classes and
    the listeners an element is left with: what the browser makes of an
    attribute such as [checked] or [value] for the state of an input is
    not modelled.  An object whose own [toString] cannot be called
    makes the comparison throw, which [toString] returns as [None]. *)

From Stdlib Require Import String Ascii.
From stdpp Require Import base option list gmap strings.

Local Open Scope string_scope.

(** ** JavaScript values *)

Module JS.

(** [JNum] carries the text the number prints as ([String(n)]); this
    program only ever tests a number for truthiness or prints it.
    [JObj] stands for any object that is not an array; all this program
    ever asks of one is its [toString], so an object carries only
    whether it has a property [toString] of its own.  Objects here come
    out of [JSON.parse], where such a property is never a function. *)
#[warnings="-register-all"]
Inductive jsval : Type :=
| JUndefined
| JNull
| JBool (b : bool)
| JNum (text : string)
| JStr (s : string)
| JArr (items : list jsval)
| JObj (own_toString : bool).

(** [if (v)]: [false], [0], [NaN], the empty string, [null] and
    [undefined] are falsy; everything else, arrays and objects
    included, is truthy. *)
Definition truthy (v : jsval) : bool :=
  match v with
  | JUndefined | JNull => false
  | JBool b => b
  | JNum t => negb (bool_decide (t = "0") || bool_decide (t = "NaN"))
  | JStr s => negb (bool_decide (s = ""))
  | JArr _ | JObj _ => true
  end.

(** [$.isArray(v)] *)
Definition isArray (v : jsval) : bool :=
  match v with JArr _ => true | _ => false end.

Definition join (sep : string) (l : list string) : string :=
  match l with
  | [] => ""
  | x :: rest => fold_left (fun acc y => acc ++ sep ++ y) rest x
  end.

(** [v.toString()]; reading a property of [null] or [undefined]
    throws, and so does calling a [toString] that is not a function.
    An array prints its items separated by commas, [null] and
    [undefined] items as nothing. *)
Fixpoint toString (v : jsval) : option string :=
  match v with
  | JUndefined | JNull => None
  | JBool true => Some "true"
  | JBool false => Some "false"
  | JNum t => Some t
  | JStr s => Some s
  | JArr items =>
      texts ← (fix each (l : list jsval) : option (list string) :=
                 match l with
                 | [] => Some []
                 | x :: rest =>
                     t ← match x with
                         | JUndefined | JNull => Some ""
                         | _ => toString x
                         end;
                     ts ← each rest;
                     Some (t :: ts)
                 end) items;
      Some (join "," texts)
  | JObj false => Some "[object Object]"
  | JObj true => None
  end.

(** [a === b].  Arrays and objects are compared by reference, and the
    two arrays that meet in this program are never the same object;
    [NaN] is not equal to itself. *)
Definition strict_eq (a b : jsval) : bool :=
  match a, b with
  | JUndefined, JUndefined => true
  | JNull, JNull => true
  | JBool x, JBool y => bool_decide (x = y)
  | JNum x, JNum y => bool_decide (x = y) && negb (bool_decide (x = "NaN"))
  | JStr x, JStr y => bool_decide (x = y)
  | _, _ => false
  end.

(** [Array.prototype.indexOf.call(arr, v) > -1] *)
Definition includes (arr : list jsval) (v : jsval) : bool :=
  existsb (strict_eq v) arr.

End JS.
Import JS.

(** ** Strings *)

Module Text.

(** [s.split(sep)] for a one-character separator: always at least one
    piece, and every occurrence of the separator splits. *)
Fixpoint split (sep : ascii) (s : string) : list string :=
  match s with
  | EmptyString => [EmptyString]
  | String c rest =>
      if bool_decide (c = sep) then EmptyString :: split sep rest
      else match split sep rest with
           | [] => [String c EmptyString]
           | piece :: pieces => String c piece :: pieces
           end
  end.

(** The white space that separates class names. *)
Definition is_space (c : ascii) : bool :=
  bool_decide (c = " "%char) || bool_decide (c = "009"%char)
  || bool_decide (c = "010"%char) || bool_decide (c = "012"%char)
  || bool_decide (c = "013"%char).

(** The class names of a space-separated list ([value.match(/\S+/g)]). *)
Fixpoint tokens_from (cur : string) (s : string) : list string :=
  match s with
  | EmptyString => if bool_decide (cur = "") then [] else [cur]
  | String c rest =>
      if is_space c
      then (if bool_decide (cur = "") then [] else [cur]) ++ tokens_from "" rest
      else tokens_from (cur ++ String c EmptyString) rest
  end.

Definition tokens (s : string) : list string := tokens_from "" s.

(** [s.indexOf(p) === 0] *)
Fixpoint starts_with (p s : string) : bool :=
  match p, s with
  | EmptyString, _ => true
  | String a p', String b s' => bool_decide (a = b) && starts_with p' s'
  | String _ _, EmptyString => false
  end.

(** [s.substring(n)] *)
Fixpoint drop (n : nat) (s : string) : string :=
  match n, s with
  | O, _ => s
  | S n', String _ s' => drop n' s'
  | S _, EmptyString => EmptyString
  end.

Fixpoint last_char (s : string) : option ascii :=
  match s with
  | EmptyString => None
  | String c EmptyString => Some c
  | String _ rest => last_char rest
  end.

End Text.

(** ** The page *)

(** The closure bound by [init] as a change handler: it remembers the
    group of toggled elements, the input name and the scope. *)
Record handler : Type := Handler {
  h_toggles : list nat;
  h_inputName : string;
  h_scope : nat -> bool;
}.

(** An event binding: [$(el).on('type.ns1.ns2', handler)]. *)
Record listener : Type := Listener {
  l_type : string;
  l_namespaces : list string;
  l_handler : option handler;   (* [None]: a listener of other code *)
}.

(** The fields are kept apart: writing an attribute leaves [el_type],
    [el_val] and [el_checked] as they are. *)
Record element : Type := Element {
  attrs : gmap string string;   (* attributes other than [class] *)
  classes : list string;        (* the class tokens, in order *)
  el_type : string;             (* [input.type] *)
  el_val : jsval;               (* [$(input).val()] *)
  el_checked : bool;            (* [$(input).is(':checked')] *)
  listeners : list listener;
}.

Definition with_attrs (f : gmap string string -> gmap string string)
    (el : element) : element :=
  Element (f (attrs el)) (classes el) (el_type el) (el_val el)
          (el_checked el) (listeners el).

Definition with_classes (f : list string -> list string)
    (el : element) : element :=
  Element (attrs el) (f (classes el)) (el_type el) (el_val el)
          (el_checked el) (listeners el).

Definition with_listeners (f : list listener -> list listener)
    (el : element) : element :=
  Element (attrs el) (classes el) (el_type el) (el_val el)
          (el_checked el) (f (listeners el)).

(** *** jQuery primitives on one element *)

Module JQ.

(** [$el.is('[name]')] *)
Definition has_attr (name : string) (el : element) : bool :=
  bool_decide (is_Some (attrs el !! name)).

(** [$el.attr(name)]: the attribute, or [undefined]. *)
Definition attr (name : string) (el : element) : option string :=
  attrs el !! name.

(** [$el.attr(name, value)], for a well-formed attribute name other
    than [class]; a boolean attribute is written with its own name for
    value, so for those the value is to be the name. *)
Definition set_attr (name value : string) (el : element) : element :=
  with_attrs (insert name value) el.

(** [$el.removeAttr(name)], for an attribute name that is
    [Names.well_formed]. *)
Definition removeAttr (name : string) (el : element) : element :=
  with_attrs (delete name) el.

(** [$el.addClass(value)]: each name of the list not yet present is
    appended. *)
Definition add_one (cur : list string) (c : string) : list string :=
  if bool_decide (c ∈ cur) then cur else cur ++ [c].

Definition addClass (value : string) (el : element) : element :=
  with_classes (fun cur => fold_left add_one (Text.tokens value) cur) el.

(** [$el.removeClass(value)]: every occurrence of each name goes. *)
Definition remove_one (cur : list string) (c : string) : list string :=
  filter (fun x => x ≠ c) cur.

Definition removeClass (value : string) (el : element) : element :=
  with_classes (fun cur => fold_left remove_one (Text.tokens value) cur) el.

End JQ.

(** ** [InputToggle.attributes]: the marker attribute names *)

Record Attributes : Type := MkAttributes {
  toggled : string;
  activeValue : string;
  inactiveValue : string;
  activeClass : string;
  inactiveClass : string;
  activeAttribute : string;
  inactiveAttribute : string;
}.

Definition default_attributes : Attributes := {|
  toggled := "data-input-toggle";
  activeValue := "data-input-toggle-active-value";
  inactiveValue := "data-input-toggle-inactive-value";
  activeClass := "data-input-toggle-active-class";
  inactiveClass := "data-input-toggle-inactive-class";
  activeAttribute := "data-input-toggle-active-attribute";
  inactiveAttribute := "data-input-toggle-inactive-attribute";
|}.

(** The seven roles, to speak of one marker name at a time. *)
Inductive marker : Type :=
| Toggled | ActiveValue | InactiveValue | ActiveClass | InactiveClass
| ActiveAttribute | InactiveAttribute.

Definition marker_name (A : Attributes) (k : marker) : string :=
  match k with
  | Toggled => toggled A
  | ActiveValue => activeValue A
  | InactiveValue => inactiveValue A
  | ActiveClass => activeClass A
  | InactiveClass => inactiveClass A
  | ActiveAttribute => activeAttribute A
  | InactiveAttribute => inactiveAttribute A
  end.

(** An [options.attributes] object: the names it defines. *)
Definition overrides : Type := marker -> option string.

(** [$.extend(target, source)]: every property the source defines
    replaces the target's. *)
Definition extend (A : Attributes) (ov : overrides) : Attributes := {|
  toggled := default (toggled A) (ov Toggled);
  activeValue := default (activeValue A) (ov ActiveValue);
  inactiveValue := default (inactiveValue A) (ov InactiveValue);
  activeClass := default (activeClass A) (ov ActiveClass);
  inactiveClass := default (inactiveClass A) (ov InactiveClass);
  activeAttribute := default (activeAttribute A) (ov ActiveAttribute);
  inactiveAttribute := default (inactiveAttribute A) (ov InactiveAttribute);
|}.

(** ** What [$el.data(key)] makes of an attribute *)

Module Data.

Definition is_digit (c : ascii) : bool :=
  bool_decide (48 ≤ nat_of_ascii c ≤ 57)%nat.

Fixpoint all_digits (s : string) : bool :=
  match s with
  | EmptyString => true
  | String c rest => is_digit c && all_digits rest
  end.

(** A decimal integer written the way JavaScript prints it: no leading
    zero, at most fifteen digits (all of those are exact doubles). *)
Definition plain_natural (s : string) : bool :=
  match s with
  | EmptyString => false
  | String c rest =>
      is_digit c && all_digits rest && bool_decide (String.length s ≤ 15)%nat
      && (negb (bool_decide (c = "0"%char)) || bool_decide (rest = ""))
  end.

(** [data === +data + ""]: the texts that read as a number and print
    back unchanged.  Fractions and exponents are left to the last case
    of [getData]: such a number is truthy and prints as its own text, so
    this program cannot tell it from the string. *)
Definition canonical_number (s : string) : bool :=
  plain_natural s
  || match s with
     | String "-" rest => plain_natural rest && negb (bool_decide (rest = "0"))
     | _ => false
     end
  || bool_decide (s = "NaN") || bool_decide (s = "Infinity")
  || bool_decide (s = "-Infinity").

(** [rbrace = /^(?:\{[\w\W]*\}|\[[\w\W]*\])$/] *)
Definition rbrace (s : string) : bool :=
  match s with
  | String "{" rest => bool_decide (Text.last_char rest = Some "}"%char)
  | String "[" rest => bool_decide (Text.last_char rest = Some "]"%char)
  | _ => false
  end.

(** [key.replace(/[A-Z]/g, "-$&").toLowerCase()] *)
Fixpoint hyphenate (key : string) : string :=
  match key with
  | EmptyString => EmptyString
  | String c rest =>
      let n := nat_of_ascii c in
      if bool_decide (65 ≤ n ≤ 90)%nat
      then String "-" (String (ascii_of_nat (n + 32)) (hyphenate rest))
      else String c (hyphenate rest)
  end.

End Data.

(** ** Attribute names and input names *)

Module Names.

Definition is_lower (c : ascii) : bool :=
  bool_decide (97 ≤ nat_of_ascii c ≤ 122)%nat.

Definition is_name_char (c : ascii) : bool :=
  is_lower c || Data.is_digit c
  || bool_decide (c = "-"%char) || bool_decide (c = "_"%char).

(** A name that [setAttribute] takes and keeps as it is written, and
    that an attribute selector [[name]] takes literally: a lower-case
    letter followed by lower-case letters, digits, [-] and [_].  Other
    names are lower-cased by the document, split at white space by
    [removeAttr], or refused with an [InvalidCharacterError]. *)
Definition well_formed (name : string) : bool :=
  match name with
  | EmptyString => false
  | String c rest =>
      is_lower c && forallb is_name_char (list_ascii_of_string rest)
  end.

(** jQuery's boolean attributes ([jQuery.expr.match.bool]): [attr]
    writes the name of such an attribute for its value. *)
Definition booleans : list string :=
  [ "checked"; "selected"; "async"; "autofocus"; "autoplay"; "controls";
    "defer"; "disabled"; "hidden"; "ismap"; "loop"; "multiple"; "open";
    "readonly"; "required"; "scoped" ].

Definition quote : ascii := ascii_of_nat 34.


(** The input names that the selector ['[name="' + inputName + '"]']
    takes literally: no double quote, no backslash and no control
    character.  A name with a quote or a backslash makes another
    selector of the text, which throws or matches other elements. *)
Definition selector_safe (inputName : string) : bool :=
  forallb
    (fun c => bool_decide (32 ≤ nat_of_ascii c)%nat
              && negb (bool_decide (nat_of_ascii c = 127)%nat)
              && negb (bool_decide (nat_of_ascii c = 34)%nat)
              && negb (bool_decide (nat_of_ascii c = 92)%nat))
    (list_ascii_of_string inputName).

End Names.

(** [JSON.parse]: the value of a text, or [None] when it throws a
    [SyntaxError].  The functions below take it as they find it. *)
Class JsonParser : Type := JSON_parse : string -> option jsval.

(** ** The functions of [InputToggle] *)

Section InputToggle.

Context `{JsonParser}.

(** jQuery's [getData] (as of jQuery 1.8); [dataAttr] catches what
    [JSON.parse] throws and keeps the text. *)
Definition getData (data : string) : jsval :=
  if bool_decide (data = "true") then JBool true
  else if bool_decide (data = "false") then JBool false
  else if bool_decide (data = "null") then JNull
  else if Data.canonical_number data then JNum data
  else if Data.rbrace data then default (JStr data) (JSON_parse data)
  else JStr data.

(** [$el.data(key)] on an element that holds no stored data: the
    [data-] attribute of that key, converted; [undefined] without it. *)
Definition data (key : string) (el : element) : jsval :=
  match attrs el !! ("data-" ++ Data.hyphenate key) with
  | Some text => getData text
  | None => JUndefined
  end.

(** *** [validateToggle] *)

(** [$toggle.is('[' + name + ']') && $toggle.attr(name).length > 0] *)
Definition nonempty_attr (name : string) (el : element) : bool :=
  JQ.has_attr name el
  && match JQ.attr name el with
     | Some v => bool_decide (0 < String.length v)
     | None => false
     end.

Definition validateToggle (A : Attributes) (toggle : element) : bool :=
  if (nonempty_attr (activeValue A) toggle
      || nonempty_attr (inactiveValue A) toggle)
     && (nonempty_attr (activeClass A) toggle
         || nonempty_attr (inactiveClass A) toggle
         || nonempty_attr (activeAttribute A) toggle
         || nonempty_attr (inactiveAttribute A) toggle)
  then true
  else false.

(** *** [getInputValues] *)

(** [$scope.find(selector)]: the elements below the scope that the
    selector matches, in document order. *)
Definition find (matches : element -> bool) (inScope : nat -> bool)
    (page : list element) : list nat :=
  List.filter
    (fun i => inScope i
              && match page !! i with Some el => matches el | None => false end)
    (seq 0 (length page)).

(** What the selector [Names.name_selector inputName] matches, for an
    input name that is [Names.selector_safe]. *)
Definition named (inputName : string) (el : element) : bool :=
  bool_decide (attrs el !! "name" = Some inputName).

(** The body of the [each] loop: what one input adds to [inputValues]. *)
Definition collect_input (inputValues : list jsval) (input : element)
    : list jsval :=
  let inputValue := el_val input in
  if bool_decide (el_type input = "checkbox")
     || bool_decide (el_type input = "radio")
  then (if el_checked input then inputValues ++ [inputValue] else inputValues)
  else match inputValue with
       | JArr items => inputValues ++ items
       | _ => inputValues ++ [inputValue]
       end.

Definition getInputValues (inputName : string) (inScope : nat -> bool)
    (page : list element) : list jsval :=
  let inputs := find (named inputName) inScope page in
  if bool_decide (0 < length inputs)
  then fold_left
         (fun inputValues i =>
            match page !! i with
            | Some input => collect_input inputValues input
            | None => inputValues
            end)
         inputs []
  else [].

(** *** [getAttributeValue], [hasInputValues], [determineActive] *)

Definition getAttributeValue (toggle : element) (attributeName : string)
    : jsval :=
  if JQ.has_attr attributeName toggle
  then if Text.starts_with "data-" attributeName
       then data (Text.drop 5 attributeName) toggle
       else match JQ.attr attributeName toggle with
            | Some v => JStr v
            | None => JUndefined
            end
  else JBool false.

(** [$(testValues).filter(inputValues)]: the test values that are
    found, by [===], among the input values. *)
Definition jq_filter (testValues inputValues : list jsval) : list jsval :=
  List.filter (includes inputValues) testValues.

Definition hasInputValues (inputValues : list jsval) (testValues : jsval)
    : option bool :=
  testValues ← match testValues with
                | JArr items => Some items
                | scalar => s ← toString scalar; Some [JStr s]
                end;
  if bool_decide (0 < length (jq_filter testValues inputValues))
  then Some true
  else Some false.

(** The function ends without a [return] when neither value is truthy:
    the result is then [undefined]. *)
Definition determineActive (A : Attributes) (toggle : element)
    (inputValues : list jsval) : option jsval :=
  let activeValues := getAttributeValue toggle (activeValue A) in
  let inactiveValues := getAttributeValue toggle (inactiveValue A) in
  if truthy activeValues
  then b ← hasInputValues inputValues activeValues; Some (JBool b)
  else if truthy inactiveValues
  then b ← hasInputValues inputValues inactiveValues; Some (JBool (negb b))
  else Some JUndefined.

(** *** [toggleClass] *)

Definition toggleClass (A : Attributes) (toggle : element) (isActive : jsval)
    : element :=
  let activeClass := default "" (JQ.attr (activeClass A) toggle) in
  let inactiveClass := default "" (JQ.attr (inactiveClass A) toggle) in
  if truthy isActive
  then
    let t1 := if bool_decide (0 < String.length activeClass)
              then JQ.addClass activeClass toggle else toggle in
    if bool_decide (0 < String.length inactiveClass)
    then JQ.removeClass inactiveClass t1 else t1
  else
    let t1 := if bool_decide (0 < String.length activeClass)
              then JQ.removeClass activeClass toggle else toggle in
    if bool_decide (0 < String.length inactiveClass)
    then JQ.addClass inactiveClass t1 else t1.

(** *** [parseToggleAttribute], [toggleAttribute] *)

Record parsed : Type := Parsed { attribute : string; value : string }.

Definition parseToggleAttribute (toggle : element) (attribute : string)
    : parsed :=
  if JQ.has_attr attribute toggle
  then
    let toggleAttribute := default "" (JQ.attr attribute toggle) in
    let splitEqual := Text.split "=" toggleAttribute in
    if bool_decide (1 < length splitEqual)
    then Parsed (default "" (splitEqual !! 0)) (default "" (splitEqual !! 1))
    else Parsed toggleAttribute ""
  else Parsed "" "".

(** The "set" half of [toggleAttribute]: with a value the attribute is
    assigned; without one the code calls [$toggle.attr(name)], which
    reads the attribute and changes nothing. *)
Definition set_directive (d : parsed) (toggle : element) : element :=
  if bool_decide (0 < String.length (attribute d))
  then if bool_decide (0 < String.length (value d))
       then JQ.set_attr (attribute d) (value d) toggle
       else toggle
  else toggle.

Definition remove_directive (d : parsed) (toggle : element) : element :=
  if bool_decide (0 < String.length (attribute d))
  then JQ.removeAttr (attribute d) toggle
  else toggle.

Definition toggleAttribute (A : Attributes) (toggle : element)
    (isActive : jsval) : element :=
  let activeAttribute := parseToggleAttribute toggle (activeAttribute A) in
  let inactiveAttribute := parseToggleAttribute toggle (inactiveAttribute A) in
  if truthy isActive
  then remove_directive inactiveAttribute (set_directive activeAttribute toggle)
  else set_directive inactiveAttribute (remove_directive activeAttribute toggle).

(** *** [update] *)

(** What [update] does to one toggled element. *)
Definition update_toggle (A : Attributes) (inputValues : list jsval)
    (toggle : element) : option element :=
  isActive ← determineActive A toggle inputValues;
  Some (toggleAttribute A (toggleClass A toggle isActive) isActive).

Fixpoint update (A : Attributes) (toggles : list nat)
    (inputValues : list jsval) (page : list element) : option (list element) :=
  match toggles with
  | [] => Some page
  | i :: rest =>
      match page !! i with
      | Some toggle =>
          toggle' ← update_toggle A inputValues toggle;
          update A rest inputValues (<[i := toggle']> page)
      | None => update A rest inputValues page
      end
  end.

(** *** [init] *)

(** The first argument of [init] as jQuery resolves it: nothing usable,
    or a selection of [matched] elements with the positions that lie
    below them. *)
Inductive scope_arg : Type :=
| NoScope
| Scope (matched : nat) (below : nat -> bool).

(** [$scope]: the given scope when it selects something, the document
    otherwise; every element lies below the document. *)
Definition resolve_scope (scope : scope_arg) : nat -> bool :=
  match scope with
  | Scope matched below =>
      if bool_decide (0 < matched) then below else fun _ => true
  | NoScope => fun _ => true
  end.

(** The second argument of [init]. *)
Inductive attributes_arg : Type :=
| NoAttributes                      (* [typeof] is not ['object'] *)
| NullAttributes                    (* [null]: nothing to copy *)
| SomeAttributes (ov : overrides).

Inductive options_arg : Type :=
| NoOptions                         (* [typeof] is not ['object'] *)
| NullOptions                       (* [null]: [options.attributes] throws *)
| Options (a : attributes_arg).

Definition apply_options (A : Attributes) (options : options_arg)
    : option Attributes :=
  match options with
  | NoOptions => Some A
  | NullOptions => None
  | Options NoAttributes => Some A
  | Options NullAttributes => Some A
  | Options (SomeAttributes ov) => Some (extend A ov)
  end.

(** The object [toggles]: its own properties in the order they were
    created. *)
Definition groups : Type := list (string * list nat).

Fixpoint push_toggle (inputName : string) (i : nat) (toggles : groups)
    : groups :=
  match toggles with
  | [] => [(inputName, [i])]
  | (k, members) :: rest =>
      if bool_decide (k = inputName)
      then (k, (members ++ [i])%list) :: rest
      else (k, members) :: push_toggle inputName i rest
  end.

(** The callback of the first [each]: a marked element is filed under
    its input name when it validates and the name is not empty.  On the
    name [__proto__] the lookup finds [Object.prototype], an object
    without [push], and the call throws. *)
Definition register (A : Attributes) (page : list element)
    (toggles : groups) (i : nat) : option groups :=
  match page !! i with
  | Some toggle =>
      if validateToggle A toggle
      then
        let inputName := default "" (attrs toggle !! toggled A) in
        if bool_decide (0 < String.length inputName)
        then if bool_decide (inputName = "__proto__") then None
             else Some (push_toggle inputName i toggles)
        else Some toggles
      else Some toggles
  | None => Some toggles
  end.

Fixpoint register_all (A : Attributes) (page : list element)
    (found : list nat) (toggles : groups) : option groups :=
  match found with
  | [] => Some toggles
  | i :: rest =>
      toggles' ← register A page toggles i;
      register_all A page rest toggles'
  end.

(** [$.each(toggles, ...)] enumerates with [for ... in]: the names that
    are array indices first, in increasing order, then the others in
    creation order. *)
Definition array_index (k : string) : option N :=
  if Data.plain_natural k
  then
    let n := fold_left
               (fun acc c => (acc * 10 + N.of_nat (nat_of_ascii c - 48))%N)
               (list_ascii_of_string k) 0%N in
    if bool_decide (n < 4294967295)%N then Some n else None
  else None.

Fixpoint insert_indexed (x : N * (string * list nat))
    (l : list (N * (string * list nat))) : list (N * (string * list nat)) :=
  match l with
  | [] => [x]
  | y :: rest =>
      if bool_decide (x.1 < y.1)%N then x :: y :: rest
      else y :: insert_indexed x rest
  end.

Definition enumerate (toggles : groups) : groups :=
  let indexed :=
    omap (fun g => n ← array_index g.1; Some (n, g)) toggles in
  let named :=
    List.filter (fun g => bool_decide (array_index g.1 = None)) toggles in
  ((foldr insert_indexed [] indexed).*2 ++ named)%list.

(** [.off('change.InputToggle')] removes the [change] listeners that
    carry the namespace [InputToggle]; [.on('change.InputToggle', f)]
    adds one. *)
Definition is_toggle_binding (l : listener) : bool :=
  bool_decide (l_type l = "change")
  && bool_decide ("InputToggle" ∈ l_namespaces l).

Definition off_change (ls : list listener) : list listener :=
  List.filter (fun l => negb (is_toggle_binding l)) ls.

Definition on_change (h : handler) (ls : list listener) : list listener :=
  ls ++ [Listener "change" ["InputToggle"] (Some h)].

Definition bind_input (h : handler) (input : element) : element :=
  with_listeners (fun ls => on_change h (off_change ls)) input.

Fixpoint bind_inputs (h : handler) (inputs : list nat) (page : list element)
    : list element :=
  match inputs with
  | [] => page
  | i :: rest =>
      bind_inputs h rest
        (match page !! i with
         | Some input => <[i := bind_input h input]> page
         | None => page
         end)
  end.

(** The callback of the second [each], for one input name. *)
Definition init_group (A : Attributes) (inScope : nat -> bool)
    (page : list element) (g : string * list nat) : option (list element) :=
  let '(inputName, inputToggles) := g in
  let inputs := find (named inputName) inScope page in
  if bool_decide (0 < length inputs)
  then
    let page' :=
      bind_inputs (Handler inputToggles inputName inScope) inputs page in
    update A inputToggles (getInputValues inputName inScope page') page'
  else Some page.

Fixpoint init_groups (A : Attributes) (inScope : nat -> bool)
    (gs : groups) (page : list element) : option (list element) :=
  match gs with
  | [] => Some page
  | g :: rest =>
      page' ← init_group A inScope page g;
      init_groups A inScope rest page'
  end.

(** The state [init] works on: the shared [InputToggle.attributes] and
    the page. *)
Record state : Type := State {
  attributes : Attributes;
  page : list element;
}.

(** The groups [init] builds from the marked elements of the scope. *)
Definition toggles_of (A : Attributes) (inScope : nat -> bool)
    (page : list element) : option groups :=
  register_all A page (find (JQ.has_attr (toggled A)) inScope page) [].

(** A call of [init]: the marker names it leaves in the shared
    [InputToggle.attributes], and the page it leaves when it returns.
    Reading [options.attributes] of [null] throws before anything is
    merged; every later throw comes after the merge, which stays. *)
Definition init_run (st : state) (scope : scope_arg) (options : options_arg)
    : Attributes * option (list element) :=
  let inScope := resolve_scope scope in
  match apply_options (attributes st) options with
  | None => (attributes st, None)
  | Some A =>
      (A, toggles ← toggles_of A inScope (page st);
          init_groups A inScope (enumerate toggles) (page st))
  end.

(** The state after a call that returns. *)
Definition init (st : state) (scope : scope_arg) (options : options_arg)
    : option state :=
  let '(A, result) := init_run st scope options in
  page' ← result;
  Some (State A page').


(** A [change] event on the element at [i]: the handlers bound to it
    run in the order they were bound, with the marker names current at
    that time. *)
Fixpoint run_handlers (A : Attributes) (ls : list listener)
    (page : list element) : option (list element) :=
  match ls with
  | [] => Some page
  | l :: rest =>
      if bool_decide (l_type l = "change")
      then match l_handler l with
           | Some h =>
               page' ← update A (h_toggles h)
                         (getInputValues (h_inputName h) (h_scope h) page)
                         page;
               run_handlers A rest page'
           | None => run_handlers A rest page
           end
      else run_handlers A rest page
  end.

Definition change (st : state) (i : nat) : option state :=
  match page st !! i with
  | Some input =>
      page' ← run_handlers (attributes st) (listeners input) (page st);
      Some (State (attributes st) page')
  | None => Some st
  end.

(** Successive calls of [init]. *)
Fixpoint init_all (st : state) (calls : list (scope_arg * options_arg))
    : option state :=
  match calls with
  | [] => Some st
  | (scope, options) :: rest =>
      st' ← init st scope options;
      init_all st' rest
  end.

End InputToggle.

(** ** A parser for the array literals of the documentation *)

Module Json.

Inductive where_ : Type := Start | Opened | InString | AfterString | AfterComma | Closed.

Definition quote : ascii := ascii_of_nat 34.

Definition is_blank (c : ascii) : bool :=
  bool_decide (c = " "%char) || bool_decide (c = "009"%char)
  || bool_decide (c = "010"%char) || bool_decide (c = "013"%char).

(** Reads [ "a", "b", ... ]: strings without escapes.  Anything else is
    refused. *)
Fixpoint scan (w : where_) (cur : string) (acc : list jsval) (s : string)
    : option (list jsval) :=
  match s with
  | EmptyString => match w with Closed => Some acc | _ => None end
  | String c rest =>
      match w with
      | Start =>
          if bool_decide (c = "["%char) then scan Opened "" acc rest
          else if is_blank c then scan Start "" acc rest else None
      | Opened =>
          if bool_decide (c = quote) then scan InString "" acc rest
          else if bool_decide (c = "]"%char) then scan Closed "" acc rest
          else if is_blank c then scan Opened "" acc rest else None
      | InString =>
          if bool_decide (c = quote)
          then scan AfterString "" (acc ++ [JStr cur]) rest
          else if bool_decide (c = "\"%char) || bool_decide (nat_of_ascii c < 32)
          then None
          else scan InString (cur ++ String c EmptyString) acc rest
      | AfterString =>
          if bool_decide (c = ","%char) then scan AfterComma "" acc rest
          else if bool_decide (c = "]"%char) then scan Closed "" acc rest
          else if is_blank c then scan AfterString "" acc rest else None
      | AfterComma =>
          if bool_decide (c = quote) then scan InString "" acc rest
          else if is_blank c then scan AfterComma "" acc rest else None
      | Closed => if is_blank c then scan Closed "" acc rest else None
      end
  end.

(** [JSON.parse] restricted to arrays of plain strings, the form the
    documentation prescribes for several values; used for the concrete
    pages below. *)
Definition string_arrays : JsonParser :=
  fun s => JArr <$> scan Start "" [] s.

End Json.

(** ** Concrete pages *)

Module Pages.

Definition target (marks : list (string * string)) (cls : list string)
    : element :=
  Element (list_to_map marks) cls "" (JStr "") false [].

Definition input (name type val : string) (checked : bool) : element :=
  Element {[ "name" := name ]} [] type (JStr val) checked [].

Definition multiselect (name : string) (selected : list string) : element :=
  Element {[ "name" := name ]} [] "select-multiple"
          (JArr (JStr <$> selected)) false [].

Definition fresh (page : list element) : state :=
  State default_attributes page.

(** A checkbox named [agree] with value [1], and an element shown while
    it is checked. *)
Definition agree (checked : bool) : list element :=
  [ input "agree" "checkbox" "1" checked;
    target [("data-input-toggle", "agree");
            ("data-input-toggle-active-value", "1");
            ("data-input-toggle-active-class", "visible")] [] ].

(** An attribute directive whose value itself holds an [=]. *)
Definition two_equals : element :=
  target [("data-input-toggle-active-attribute", "data-x=1=2")] [].

(** Attribute directives without and with a value. *)
Definition bare_directive : element :=
  target [("data-input-toggle-active-attribute", "disabled")] [].

Definition valued_directive : element :=
  target [("data-input-toggle-active-attribute", "checked=checked")] [].

(** An element to be shown while a checkbox of value [0] is checked. *)
Definition zero_target : element :=
  target [("data-input-toggle", "agree");
          ("data-input-toggle-active-value", "0");
          ("data-input-toggle-active-class", "visible")] [].

Definition zero_page : list element :=
  [ input "agree" "checkbox" "0" true; zero_target ].

(** A target that carries directives but neither value marker. *)
Definition unconfigured : element :=
  target [("data-input-toggle-active-class", "visible");
          ("data-input-toggle-inactive-attribute", "title=off")]
         ["visible"].

Definition unconfigured_after : element :=
  target [("data-input-toggle-active-class", "visible");
          ("data-input-toggle-inactive-attribute", "title=off");
          ("title", "off")]
         [].

(** The target for the checkbox of value [0], shown in the markup. *)
Definition zero_shown : element :=
  target [("data-input-toggle", "agree");
          ("data-input-toggle-active-value", "0");
          ("data-input-toggle-active-class", "visible")] ["visible"].

Definition zero_shown_page : list element :=
  [ input "agree" "checkbox" "0" true; zero_shown ].

(** A target whose markup already shows the active class. *)
Definition shown : element :=
  target [("data-input-toggle", "agree");
          ("data-input-toggle-active-value", "1");
          ("data-input-toggle-active-class", "visible")]
         ["visible"].

(** A target whose inactive directive sets an attribute. *)
Definition titled : element :=
  target [("data-input-toggle", "agree");
          ("data-input-toggle-active-value", "1");
          ("data-input-toggle-active-class", "on");
          ("data-input-toggle-inactive-attribute", "title=off")]
         [].

(** A target in its inactive state, with all four directives. *)
Definition hidden_box : element :=
  target [("data-input-toggle", "agree");
          ("data-input-toggle-active-value", "1");
          ("data-input-toggle-active-class", "visible");
          ("data-input-toggle-inactive-class", "hidden");
          ("data-input-toggle-active-attribute", "checked=checked");
          ("data-input-toggle-inactive-attribute", "title=off");
          ("title", "off")]
         ["box"; "hidden"].

(** A checkbox, a target with both value markers, and a marked element
    without any value marker. *)
Definition both_values : element :=
  target [("data-input-toggle", "agree");
          ("data-input-toggle-active-value", "1");
          ("data-input-toggle-inactive-value", "2");
          ("data-input-toggle-active-class", "visible")] [].

Definition no_value : element :=
  target [("data-input-toggle", "agree");
          ("data-input-toggle-active-class", "visible")] ["visible"].

Definition mixed : list element :=
  [ input "agree" "checkbox" "1" true; both_values; no_value ].


(** The page of the checkbox after one call of [init], and after two. *)
Definition agree_once : state :=
  Eval vm_compute in
    default (fresh (agree true))
      (init (H := Json.string_arrays) (fresh (agree true)) NoScope NoOptions).


(** The user ticks or clears the checkbox at [i]. *)
Definition set_checked (i : nat) (b : bool) (st : state) : state :=
  State (attributes st)
        (alter (fun el => Element (attrs el) (classes el) (el_type el)
                                  (el_val el) b (listeners el))
               i (page st)).

(** A multiple select named [tags] with [a] and [b] selected, and a
    target that is inactive on [a] or [c] and checked otherwise. *)
Definition quoted (s : string) : string :=
  String Json.quote (s ++ String Json.quote "").

Definition tags_target : element :=
  target [("data-input-toggle", "tags");
          ("data-input-toggle-inactive-value",
           "[" ++ quoted "a" ++ "," ++ quoted "c" ++ "]");
          ("data-input-toggle-active-attribute", "checked=checked");
          ("checked", "checked")] [].

Definition tags_page : list element :=
  [ multiselect "tags" ["a"; "b"]; tags_target ].

(** Marker names of one's own for the toggled element and its value. *)
Definition show_for : overrides :=
  fun k => match k with
           | Toggled => Some "data-show-for"
           | ActiveValue => Some "data-show-when"
           | _ => None
           end.

Definition custom_page : list element :=
  [ input "agree" "checkbox" "1" true;
    target [("data-show-for", "agree");
            ("data-show-when", "1");
            ("data-input-toggle-active-class", "visible")] [];
    target [("data-input-toggle", "agree");
            ("data-input-toggle-active-value", "1");
            ("data-input-toggle-active-class", "visible")] [] ].

Definition custom_once : state :=
  Eval vm_compute in
    default (fresh custom_page)
      (init (H := Json.string_arrays) (fresh custom_page) NoScope
         (Options (SomeAttributes show_for))).

Definition custom_twice : state :=
  Eval vm_compute in
    default custom_once
      (init (H := Json.string_arrays) custom_once NoScope NoOptions).

(** Directives that name the same attribute for both states. *)
Definition same_name : element :=
  target [("data-input-toggle", "agree");
          ("data-input-toggle-active-value", "1");
          ("data-input-toggle-active-attribute", "aria-hidden=false");
          ("data-input-toggle-inactive-attribute", "aria-hidden=true")] [].

(** A marked element with a value but no directive, one of them
    present and empty. *)
Definition no_directive : element :=
  target [("data-input-toggle", "agree");
          ("data-input-toggle-active-value", "1");
          ("data-input-toggle-active-class", "")] ["box"].

(** A page whose first half is the scope: the checkbox and its target
    lie below it, a second checkbox and target of the same name do
    not. *)
Definition two_forms : list element :=
  agree true ++ agree true.

Definition first_form : scope_arg :=
  Scope 1 (fun i => bool_decide (i < 2)).

Definition two_forms_after : state :=
  Eval vm_compute in
    default (fresh two_forms)
      (init (H := Json.string_arrays) (fresh two_forms) first_form NoOptions).

(** A page with a target but no input, and a page whose target names
    the input [__proto__]. *)
Definition no_inputs : list element :=
  [ shown ].

Definition proto_target : element :=
  target [("data-input-toggle", "__proto__");
          ("data-input-toggle-active-value", "1");
          ("data-input-toggle-active-class", "visible")] [].

Definition proto_page : list element :=
  [ input "__proto__" "checkbox" "1" true; proto_target ].


(** Value markers whose names do not start with [data-], and a target
    that uses them with the value [0]. *)
Definition plain_names : Attributes :=
  extend default_attributes
    (fun k => match k with
              | ActiveValue => Some "when"
              | InactiveValue => Some "unless"
              | _ => None
              end).

Definition when_zero : element :=
  target [("data-input-toggle", "agree");
          ("when", "0");
          ("data-input-toggle-active-class", "visible")] [].

(** A target active on the text [yes], and one active on a set. *)
Definition when_yes : element :=
  target [("data-input-toggle", "agree");
          ("data-input-toggle-active-value", "yes");
          ("data-input-toggle-active-class", "visible")] [].

Definition one_or_two : string :=
  "[" ++ quoted "1" ++ "," ++ quoted "2" ++ "]".

Definition when_one_or_two : element :=
  target [("data-input-toggle", "agree");
          ("data-input-toggle-active-value", one_or_two);
          ("data-input-toggle-active-class", "visible")] [].

End Pages.

(** ** The specification's vocabulary *)

(** A criterion as the specification has it: one scalar, compared by
    its string form, or a set of strings. *)
Inductive scalar : Type :=
| SStr (s : string)
| SNum (text : string)
| SBool (b : bool).

Inductive criterion : Type :=
| One (c : scalar)
| Many (set : list string).

Definition string_of_scalar (c : scalar) : string :=
  match c with
  | SStr s => s
  | SNum text => text
  | SBool b => if b then "true" else "false"
  end.

(** The set of strings a criterion stands for. *)
Definition criterion_set (c : criterion) : list string :=
  match c with
  | One v => [string_of_scalar v]
  | Many set => set
  end.

(** The JavaScript value the code receives for a criterion. *)
Definition criterion_value (c : criterion) : jsval :=
  match c with
  | One (SStr s) => JStr s
  | One (SNum text) => JNum text
  | One (SBool b) => JBool b
  | Many set => JArr (JStr <$> set)
  end.

(** [intersects]: the two collections share an element. *)
Definition intersects (values set : list string) : bool :=
  bool_decide (Exists (fun v => v ∈ set) values).

(** What one input contributes to the collected values, in the
    specification's words: a checkbox or radio button its value when
    checked and nothing otherwise, an input with several values each of
    them, any other input its value. *)
Definition contribution (input : element) : list jsval :=
  if bool_decide (el_type input ∈ ["checkbox"; "radio"])
  then (if el_checked input then [el_val input] else [])
  else match el_val input with
       | JArr selected => selected
       | single => [single]
       end.

(** The collected values: the contributions of the inputs of that name
    within the scope, walking the page in document order. *)
Definition collected (inputName : string) (inScope : nat -> bool)
    (page : list element) : list jsval :=
  mjoin (imap (fun i el =>
                 if inScope i && named inputName el
                 then contribution el else [])
              page).

(** An attribute that is present and not empty. *)
Definition filled (name : string) (el : element) : Prop :=
  ∃ v, attrs el !! name = Some v ∧ v ≠ "".


(** The [change.InputToggle] bindings of an element. *)
Definition toggle_bindings (el : element) : list listener :=
  List.filter is_toggle_binding (listeners el).

(** The listeners of an element that are not [change.InputToggle]
    bindings. *)
Definition other_bindings (el : element) : list listener :=
  List.filter (fun l => negb (is_toggle_binding l)) (listeners el).

(** How [init] may change the listeners of an element: the listeners of
    other code stay, and the [change.InputToggle] bindings either stay
    or are replaced by exactly one new binding. *)
Definition rebound (el el' : element) : Prop :=
  other_bindings el' = other_bindings el
  ∧ (toggle_bindings el' = toggle_bindings el
     ∨ ∃ h, toggle_bindings el' = [Listener "change" ["InputToggle"] (Some h)]).


(** Two states of an element that show the same classes and the same
    attributes. *)
Definition same_look (a b : element) : Prop :=
  attrs a = attrs b ∧ ∀ c, c ∈ classes a ↔ c ∈ classes b.

(** The plan [update] applies to one element for a given [isActive]. *)
Definition apply_plan (A : Attributes) (isActive : bool)
    (el : element) : element :=
  toggleAttribute A (toggleClass A el (JBool isActive)) (JBool isActive).

(** A text without the character [=]. *)
Definition no_equals (s : string) : Prop :=
  ∀ c, c ∈ list_ascii_of_string s -> c ≠ "="%char.

(** The two halves of [toggleAttribute] on the attribute map. *)
Definition set_in (d : parsed) (m : gmap string string) : gmap string string :=
  if bool_decide (attribute d ≠ "" ∧ value d ≠ "")
  then <[attribute d := value d]> m else m.

Definition remove_in (d : parsed) (m : gmap string string)
    : gmap string string :=
  if bool_decide (attribute d ≠ "") then delete (attribute d) m else m.

(** The attribute names the plan of an element writes, and the marker
    attributes the plan reads. *)
Definition plan_names (A : Attributes) (el : element) : list string :=
  [ attribute (parseToggleAttribute el (activeAttribute A));
    attribute (parseToggleAttribute el (inactiveAttribute A)) ].

Definition plan_markers (A : Attributes) : list string :=
  [ activeClass A; inactiveClass A; activeAttribute A; inactiveAttribute A ].

(** The elements filed in a set of groups. *)
Definition filed (toggles : groups) (i : nat) : Prop :=
  ∃ name members, (name, members) ∈ toggles ∧ i ∈ members.

(** The elements [init] accepts: marked with a name, and valid. *)
Definition accepted (A : Attributes) (page : list element) (i : nat) : Prop :=
  ∃ el name, page !! i = Some el ∧ validateToggle A el = true
             ∧ attrs el !! toggled A = Some name ∧ name ≠ "".

(** Two pages of the same length whose elements are related, position
    by position. *)
Definition related (R : nat -> element -> element -> Prop)
    (page page' : list element) : Prop :=
  length page' = length page
  ∧ ∀ j el el', page !! j = Some el -> page' !! j = Some el' -> R j el el'.

(** Two states of an element that agree on what an input reports and on
    the listeners. *)
Definition same_input (a b : element) : Prop :=
  el_type b = el_type a ∧ el_val b = el_val a
  ∧ el_checked b = el_checked a ∧ listeners b = listeners a.

(** The element at [j] validates and names the input [name]. *)
Definition filed_as (A : Attributes) (page : list element) (name : string)
    (j : nat) : bool :=
  match page !! j with
  | Some el =>
      validateToggle A el && bool_decide (attrs el !! toggled A = Some name)
  | None => false
  end.

(** The seven marker names in force. *)
Definition markers (A : Attributes) : list string :=
  marker_name A <$> [ Toggled; ActiveValue; InactiveValue; ActiveClass;
                      InactiveClass; ActiveAttribute; InactiveAttribute ].

(** A directive that [toggleAttribute] carries out on the attribute
    map as jQuery does on the element: it names no attribute at all, or
    a well-formed name that is neither [class] nor a marker; and for a
    boolean attribute, which [attr] writes with its own name for value,
    the value is absent or is that name (as in [checked=checked]). *)
Definition directive_ok (A : Attributes) (d : parsed) : bool :=
  bool_decide (attribute d = "")
  || (Names.well_formed (attribute d)
      && negb (bool_decide (attribute d = "class"))
      && negb (bool_decide (attribute d ∈ markers A))
      && (negb (bool_decide (attribute d ∈ Names.booleans))
          || bool_decide (value d = "")
          || bool_decide (value d = attribute d))).

(** An element whose directives the primitives above carry out as
    jQuery does: the marker names are well formed and both attribute
    directives are as just described. *)
Definition tame (A : Attributes) (el : element) : bool :=
  forallb Names.well_formed (markers A)
  && directive_ok A (parseToggleAttribute el (activeAttribute A))
  && directive_ok A (parseToggleAttribute el (inactiveAttribute A)).

(** A value whose [toString] can be called. *)
Definition comparable (v : jsval) : bool :=
  match v with
  | JObj true => false
  | _ => true
  end.

(** An element whose value markers hold nothing that throws when it is
    compared. *)
Definition readable `{JsonParser} (A : Attributes) (el : element) : bool :=
  comparable (getAttributeValue el (activeValue A))
  && comparable (getAttributeValue el (inactiveValue A)).

(** The elements at the positions [S] are tame and readable. *)
Definition steady `{JsonParser} (A : Attributes) (S : nat -> Prop)
    (page : list element) : Prop :=
  ∀ j el, S j -> page !! j = Some el ->
          tame A el = true ∧ readable A el = true.

(** The value [determineActive] goes by: the active value when it is
    truthy, the inactive value otherwise. *)
Definition deciding `{JsonParser} (A : Attributes) (el : element) : jsval :=
  if truthy (getAttributeValue el (activeValue A))
  then getAttributeValue el (activeValue A)
  else getAttributeValue el (inactiveValue A).

(** * Properties *)

Local Open Scope list_scope.
Local Open Scope nat_scope.

(** ** Value comparison: [hasInputValues] *)

Lemma filter_some {X} (f : X -> bool) (l : list X) :
  0 < length (List.filter f l) ↔ ∃ x, x ∈ l ∧ f x = true.
Proof.
  induction l as [|a l IH]; simpl.
  - split; [lia | intros (x & Hx & _); by apply elem_of_nil in Hx].
  - destruct (f a) eqn:Hfa; simpl.
    + split; [intros _; exists a; split; [left | done] | lia].
    + rewrite IH. split.
      * intros (x & Hx & Hfx). exists x. split; [by right | done].
      * intros (x & Hx & Hfx). apply elem_of_cons in Hx as [-> | Hx].
        -- congruence.
        -- eauto.
Qed.

Lemma includes_JStr (V : list string) (s : string) :
  includes (JStr <$> V) (JStr s) = true ↔ s ∈ V.
Proof.
  unfold includes. induction V as [|v V IH]; simpl.
  - split; [done | intros HV; by apply elem_of_nil in HV].
  - rewrite orb_true_iff, IH, elem_of_cons, bool_decide_eq_true. tauto.
Qed.

Lemma intersects_spec (V C : list string) :
  intersects V C = true ↔ ∃ x, x ∈ V ∧ x ∈ C.
Proof.
  unfold intersects. rewrite bool_decide_eq_true, Exists_exists. done.
Qed.

Lemma some_shared (V C : list string) :
  0 < length (jq_filter (JStr <$> C) (JStr <$> V)) ↔ ∃ x, x ∈ V ∧ x ∈ C.
Proof.
  unfold jq_filter. rewrite filter_some. split.
  - intros (t & Ht & Hin). apply list_elem_of_fmap in Ht as (c & -> & Hc).
    apply includes_JStr in Hin. eauto.
  - intros (x & HV & HC). exists (JStr x). split.
    + apply list_elem_of_fmap. eauto.
    + by apply includes_JStr.
Qed.

Lemma hasInputValues_array (V C : list string) :
  hasInputValues (JStr <$> V) (JArr (JStr <$> C)) = Some (intersects V C).
Proof.
  unfold hasInputValues. simpl. case_bool_decide as Hlen.
  - apply some_shared, intersects_spec in Hlen. by rewrite Hlen.
  - destruct (intersects V C) eqn:Hi; [|done].
    apply intersects_spec, some_shared in Hi. done.
Qed.

Lemma hasInputValues_scalar (V : list string) (c : scalar) :
  hasInputValues (JStr <$> V) (criterion_value (One c))
  = Some (intersects V [string_of_scalar c]).
Proof.
  rewrite <- (hasInputValues_array V [string_of_scalar c]).
  destruct c as [s|t|[|]]; reflexivity.
Qed.

(** C2.  [hasInputValues] on a scalar or on a set of strings answers
    [intersects] of the candidate values and the criterion's set: true
    exactly when the two share an element, wherever and however often it
    occurs; an empty side gives [false]; the call always returns. *)
Theorem hasInputValues_intersects (V : list string) (c : criterion) :
  hasInputValues (JStr <$> V) (criterion_value c)
  = Some (intersects V (criterion_set c))
  ∧ (intersects V (criterion_set c) = true
     ↔ ∃ x, x ∈ V ∧ x ∈ criterion_set c)
  ∧ hasInputValues (JStr <$> []) (criterion_value c) = Some false
  ∧ hasInputValues (JStr <$> V) (criterion_value (Many [])) = Some false.
Proof.
  assert (Hc : ∀ W, hasInputValues (JStr <$> W) (criterion_value c)
                    = Some (intersects W (criterion_set c))).
  { intros W. destruct c as [v|C]; simpl criterion_set.
    - apply hasInputValues_scalar.
    - apply hasInputValues_array. }
  split; [apply Hc|]. split; [apply intersects_spec|]. split.
  - rewrite Hc. reflexivity.
  - etrans; [exact (hasInputValues_array V [])|]. f_equal.
    apply bool_decide_eq_false. rewrite Exists_exists.
    intros (x & _ & Hx). by apply elem_of_nil in Hx.
Qed.

(** Reordering or repeating values changes nothing. *)
Lemma intersects_same_elements (V V' C C' : list string) :
  (∀ x, x ∈ V ↔ x ∈ V') -> (∀ x, x ∈ C ↔ x ∈ C') ->
  intersects V C = intersects V' C'.
Proof.
  intros HV HC. apply eq_true_iff_eq. rewrite !intersects_spec.
  split; intros (x & H1 & H2); exists x; split;
    first [by apply HV | by apply HC].
Qed.

(** ** Value collection: [getInputValues] *)

Lemma elem_of_find (matches : element -> bool) (inScope : nat -> bool)
    (page : list element) (i : nat) :
  i ∈ find matches inScope page
  ↔ inScope i = true ∧ ∃ el, page !! i = Some el ∧ matches el = true.
Proof.
  unfold find. rewrite list_elem_of_In, filter_In, <- list_elem_of_In.
  rewrite elem_of_seq, andb_true_iff. split.
  - intros (_ & Hs & Hm). split; [done|].
    destruct (page !! i) as [el|]; [eauto | done].
  - intros (Hs & el & Hel & Hm). split.
    + apply lookup_lt_Some in Hel. lia.
    + by rewrite Hel.
Qed.

Lemma collect_input_contribution (acc : list jsval) (input : element) :
  collect_input acc input = acc ++ contribution input.
Proof.
  unfold collect_input, contribution.
  assert (Hty : bool_decide (el_type input = "checkbox")
                || bool_decide (el_type input = "radio")
                = bool_decide (el_type input ∈ ["checkbox"; "radio"])).
  { apply eq_true_iff_eq.
    rewrite orb_true_iff, !bool_decide_eq_true, !elem_of_cons, elem_of_nil.
    tauto. }
  rewrite Hty. clear Hty.
  destruct (bool_decide (el_type input ∈ ["checkbox"; "radio"])).
  - destruct (el_checked input); [reflexivity | by rewrite app_nil_r].
  - destruct (el_val input); reflexivity.
Qed.

Lemma collect_fold (page : list element) (inputs : list nat) :
  ∀ acc,
    fold_left (fun inputValues i =>
                 match page !! i with
                 | Some input => collect_input inputValues input
                 | None => inputValues
                 end) inputs acc
    = acc ++ mjoin ((fun i => from_option contribution [] (page !! i)) <$> inputs).
Proof.
  induction inputs as [|i inputs IH]; intros acc; simpl.
  - by rewrite app_nil_r.
  - rewrite IH. destruct (page !! i) as [el|]; simpl.
    + by rewrite collect_input_contribution, <- app_assoc.
    + done.
Qed.

Lemma mjoin_filter_seq (f : nat -> bool) (g : nat -> list jsval) (k n : nat) :
  mjoin (g <$> List.filter f (seq k n))
  = mjoin ((fun i => if f i then g i else []) <$> seq k n).
Proof.
  revert k. induction n as [|n IH]; intros k; simpl; [done|].
  destruct (f k); simpl; by rewrite IH.
Qed.

Lemma walk_page (inputName : string) (inScope : nat -> bool)
    (full part : list element) :
  ∀ k, (∀ j, part !! j = full !! (k + j)) ->
  mjoin ((fun i =>
            if inScope i
               && match full !! i with
                  | Some el => named inputName el
                  | None => false
                  end
            then from_option contribution [] (full !! i) else [])
         <$> seq k (length part))
  = mjoin (imap (fun i el =>
                   if inScope (k + i) && named inputName el
                   then contribution el else [])
                part).
Proof.
  induction part as [|el part IH]; intros k Hpart; simpl; [done|].
  pose proof (Hpart 0) as H0. simpl in H0. rewrite Nat.add_0_r in H0.
  rewrite <- H0. simpl. rewrite Nat.add_0_r. f_equal.
  etrans.
  - apply (IH (S k)). intros j. rewrite Nat.add_succ_comm. apply (Hpart (S j)).
  - f_equal. apply imap_ext. intros j x _. simpl.
    by rewrite Nat.add_succ_r.
Qed.

(** For an input name that the selector takes literally, the values
    [getInputValues] collects are the contributions of the inputs of
    that name within the scope, in document order: a checkbox or radio
    button gives its value only when checked, an input whose value is an
    array gives each selected value, any other input gives its value as
    it is. *)
Lemma getInputValues_collected (inputName : string)
    (inScope : nat -> bool) (page : list element) :
  Names.selector_safe inputName = true ->
  getInputValues inputName inScope page = collected inputName inScope page
  ∧ ∀ v, v ∈ getInputValues inputName inScope page
         ↔ ∃ i input, page !! i = Some input ∧ inScope i = true
                      ∧ attrs input !! "name" = Some inputName
                      ∧ v ∈ contribution input.
Proof.
  intros _.
  assert (Heq : getInputValues inputName inScope page
                = collected inputName inScope page).
  { unfold getInputValues, collected.
    transitivity
      (mjoin ((fun i => from_option contribution [] (page !! i))
              <$> find (named inputName) inScope page)).
    - case_bool_decide as Hlen.
      + by rewrite collect_fold.
      + destruct (find (named inputName) inScope page); [done|].
        simpl in Hlen. lia.
    - unfold find. rewrite mjoin_filter_seq.
      rewrite (walk_page inputName inScope page page 0); done. }
  split; [done|]. intros v. rewrite Heq. unfold collected.
  rewrite list_elem_of_join. split.
  - intros (l & Hv & Hl). apply elem_of_lookup_imap in Hl as (i & el & -> & Hel).
    destruct (inScope i) eqn:Hs; simpl in Hv;
      [| by apply elem_of_nil in Hv].
    destruct (named inputName el) eqn:Hn; [| by apply elem_of_nil in Hv].
    exists i, el. repeat split; try done.
    by apply bool_decide_eq_true in Hn.
  - intros (i & el & Hel & Hs & Hn & Hv). exists (contribution el).
    split; [done|]. apply elem_of_lookup_imap. exists i, el. split; [|done].
    rewrite Hs. unfold named. by rewrite bool_decide_eq_true_2.
Qed.

Lemma getInputValues_collected_witness :
  Names.selector_safe "tags" = true
  ∧ getInputValues "tags" (fun _ => true) Pages.tags_page
    = collected "tags" (fun _ => true) Pages.tags_page
  ∧ (JStr "b" ∈ getInputValues "tags" (fun _ => true) Pages.tags_page
     ↔ ∃ i input, Pages.tags_page !! i = Some input
                  ∧ attrs input !! "name" = Some "tags"
                  ∧ JStr "b" ∈ contribution input).
Proof.
  split; [reflexivity|].
  destruct (getInputValues_collected "tags" (fun _ => true) Pages.tags_page
              eq_refl) as [Heq Hin].
  split; [exact Heq|]. rewrite (Hin (JStr "b")).
  split; intros (i & input & Hi & Hrest); exists i, input; tauto.
Defined.



(** ** Attribute directives: [parseToggleAttribute] *)

Lemma no_equals_tail (c : ascii) (s : string) :
  no_equals (String c s) -> c ≠ "="%char ∧ no_equals s.
Proof.
  intros Hno. split.
  - apply Hno. simpl. left.
  - intros d Hd. apply Hno. simpl. by right.
Qed.

Lemma split_plain (s : string) : no_equals s -> Text.split "=" s = [s].
Proof.
  induction s as [|c s IH]; intros Hno; simpl; [done|].
  apply no_equals_tail in Hno as [Hc Hs].
  rewrite bool_decide_eq_false_2 by done. by rewrite IH.
Qed.

Lemma split_at_equals (l r : string) :
  no_equals l ->
  Text.split "=" (l ++ String "=" r)%string = l :: Text.split "=" r.
Proof.
  induction l as [|c l IH]; intros Hno; simpl.
  - done.
  - apply no_equals_tail in Hno as [Hc Hl].
    rewrite bool_decide_eq_false_2 by done. by rewrite IH.
Qed.

Lemma parse_read (el : element) (name raw : string) :
  attrs el !! name = Some raw ->
  parseToggleAttribute el name
  = let pieces := Text.split "=" raw in
    if bool_decide (1 < length pieces)
    then Parsed (default "" (pieces !! 0)) (default "" (pieces !! 1))
    else Parsed raw "".
Proof.
  intros Hraw. unfold parseToggleAttribute, JQ.has_attr, JQ.attr.
  rewrite Hraw. by rewrite bool_decide_eq_true_2.
Qed.

(** Without an [=] the whole text is the name and the value is empty. *)
Lemma parse_name_only (el : element) (name raw : string) :
  attrs el !! name = Some raw -> no_equals raw ->
  parseToggleAttribute el name = Parsed raw "".
Proof.
  intros Hraw Hno. rewrite (parse_read _ _ _ Hraw). simpl.
  by rewrite split_plain.
Qed.

(** With one [=] the text splits into name and value. *)
Lemma parse_name_value (el : element) (name n v : string) :
  attrs el !! name = Some (n ++ String "=" v)%string ->
  no_equals n -> no_equals v ->
  parseToggleAttribute el name = Parsed n v.
Proof.
  intros Hraw Hn Hv. rewrite (parse_read _ _ _ Hraw). simpl.
  rewrite split_at_equals, split_plain by done. done.
Qed.

(** With more, the value is the piece between the first two; the rest
    of the text is dropped. *)
Lemma parse_value_stops_at_second_equals (el : element)
    (name n v rest : string) :
  attrs el !! name = Some (n ++ String "=" (v ++ String "=" rest))%string ->
  no_equals n -> no_equals v ->
  parseToggleAttribute el name = Parsed n v.
Proof.
  intros Hraw Hn Hv. rewrite (parse_read _ _ _ Hraw). simpl.
  rewrite !split_at_equals by done. simpl.
  destruct (Text.split "=" rest); done.
Qed.

(** C3.  On [data-x=1=2] the code splits at every [=] and takes the
    second piece: the name is [data-x], the value is [1], not [1=2].
    On [checked] the name is [checked] and the value is empty. *)
Theorem parseToggleAttribute_two_equals :
  parseToggleAttribute Pages.two_equals (activeAttribute default_attributes)
  = Parsed "data-x" "1"
  ∧ parseToggleAttribute Pages.bare_directive
      (activeAttribute default_attributes)
    = Parsed "disabled" "".
Proof. split; vm_compute; reflexivity. Qed.

(** ** Attribute mutation: [toggleAttribute] *)

(** A directive without a value sets nothing. *)
Lemma set_directive_without_value (name : string) (el : element) :
  set_directive (Parsed name "") el = el.
Proof.
  unfold set_directive. simpl. by destruct (bool_decide (0 < String.length name)).
Qed.

(** A directive with a value assigns it. *)
Lemma set_directive_with_value (name v : string) (el : element) :
  name ≠ "" -> v ≠ "" ->
  attrs (set_directive (Parsed name v) el) !! name = Some v.
Proof.
  intros Hn Hv. unfold set_directive. simpl.
  destruct name; [done|]. destruct v; [done|]. simpl.
  apply lookup_insert_eq.
Qed.

(** C4.  For the directive [disabled] and [isActive = true] the element
    comes back unchanged: the attribute is not set.  For
    [checked=checked] the attribute [checked] receives the value. *)
Theorem toggleAttribute_presence_only :
  toggleAttribute default_attributes Pages.bare_directive (JBool true)
  = Pages.bare_directive
  ∧ attrs (toggleAttribute default_attributes Pages.bare_directive
             (JBool true)) !! "disabled" = None
  ∧ attrs (toggleAttribute default_attributes Pages.valued_directive
             (JBool true)) !! "checked" = Some "checked".
Proof. repeat split; vm_compute; reflexivity. Qed.

(** ** Activation: [determineActive] *)

Section Activation.

Context `{JsonParser}.

(** [hasInputValues] returns for every truthy criterion whose
    [toString] can be called, and throws on the truthy ones where it
    cannot. *)
Lemma hasInputValues_returns (inputValues : list jsval) (testValues : jsval) :
  truthy testValues = true -> comparable testValues = true ->
  is_Some (hasInputValues inputValues testValues).
Proof.
  intros Ht Hc. unfold hasInputValues.
  destruct testValues as [| |[|]|t|s|items|[|]];
    try discriminate Ht; try discriminate Hc; simpl;
    match goal with
    | |- context [bool_decide ?P] => destruct (bool_decide P)
    end; eauto.
Qed.

Lemma hasInputValues_none (inputValues : list jsval) (testValues : jsval) :
  truthy testValues = true ->
  hasInputValues inputValues testValues = None ↔ testValues = JObj true.
Proof.
  intros Ht. unfold hasInputValues.
  destruct testValues as [| |[|]|t|s|items|[|]]; try discriminate Ht; simpl;
    try (match goal with
         | |- context [bool_decide ?P] => destruct (bool_decide P)
         end); split; done.
Qed.

Lemma hasInputValues_object (inputValues : list jsval) (testValues : jsval) :
  comparable testValues = false ->
  hasInputValues inputValues testValues = None.
Proof. by destruct testValues as [| |[|]|t|s|items|[|]]. Qed.

(** What [determineActive] returns is a boolean or [undefined]. *)
Lemma determineActive_kind (A : Attributes) (toggle : element)
    (inputValues : list jsval) (r : jsval) :
  determineActive A toggle inputValues = Some r ->
  r = JUndefined ∨ ∃ b, r = JBool b.
Proof.
  unfold determineActive.
  destruct (truthy (getAttributeValue toggle (activeValue A))).
  - destruct (hasInputValues inputValues _); simpl; [|done].
    intros [= <-]. eauto.
  - destruct (truthy (getAttributeValue toggle (inactiveValue A))).
    + destruct (hasInputValues inputValues _); simpl; [|done].
      intros [= <-]. eauto.
    + intros [= <-]. eauto.
Qed.

(** [determineActive] returns on a readable element. *)
Lemma determineActive_returns (A : Attributes) (toggle : element)
    (inputValues : list jsval) :
  readable A toggle = true ->
  ∃ r, determineActive A toggle inputValues = Some r
       ∧ (r = JUndefined ∨ ∃ b, r = JBool b).
Proof.
  unfold readable. rewrite andb_true_iff. intros [Hca Hci].
  assert (Hsome : is_Some (determineActive A toggle inputValues)).
  { unfold determineActive.
    destruct (truthy (getAttributeValue toggle (activeValue A))) eqn:Ha.
    - destruct (hasInputValues_returns inputValues _ Ha Hca) as [b ->].
      simpl. eauto.
    - destruct (truthy (getAttributeValue toggle (inactiveValue A))) eqn:Hi.
      + destruct (hasInputValues_returns inputValues _ Hi Hci) as [b ->].
        simpl. eauto.
      + eauto. }
  destruct Hsome as [r Hr]. exists r. split; [done|].
  by eapply determineActive_kind.
Qed.

(** With a truthy active value the answer is the comparison with it. *)
Lemma determineActive_active (A : Attributes) (toggle : element)
    (inputValues : list jsval) :
  truthy (getAttributeValue toggle (activeValue A)) = true ->
  determineActive A toggle inputValues
  = JBool <$> hasInputValues inputValues
                (getAttributeValue toggle (activeValue A)).
Proof. intros Ha. unfold determineActive. by rewrite Ha. Qed.

(** Otherwise, with a truthy inactive value, it is the negated
    comparison with that one. *)
Lemma determineActive_inactive (A : Attributes) (toggle : element)
    (inputValues : list jsval) :
  truthy (getAttributeValue toggle (activeValue A)) = false ->
  truthy (getAttributeValue toggle (inactiveValue A)) = true ->
  determineActive A toggle inputValues
  = (fun b => JBool (negb b))
    <$> hasInputValues inputValues
          (getAttributeValue toggle (inactiveValue A)).
Proof. intros Ha Hi. unfold determineActive. by rewrite Ha, Hi. Qed.

(** The function falls through exactly when neither value is truthy. *)
Lemma determineActive_undefined (A : Attributes) (toggle : element)
    (inputValues : list jsval) :
  determineActive A toggle inputValues = Some JUndefined
  ↔ truthy (getAttributeValue toggle (activeValue A)) = false
    ∧ truthy (getAttributeValue toggle (inactiveValue A)) = false.
Proof.
  unfold determineActive.
  destruct (truthy (getAttributeValue toggle (activeValue A))) eqn:Ha.
  - destruct (hasInputValues inputValues _); simpl; split;
      first [intros [? ?] | intros ?]; congruence.
  - destruct (truthy (getAttributeValue toggle (inactiveValue A))) eqn:Hi.
    + destruct (hasInputValues inputValues _); simpl; split;
        first [intros [? ?] | intros ?]; congruence.
    + done.
Qed.

(** The texts of a [data-] attribute that read as a falsy value. *)
Lemma getData_falsy (text : string) :
  (∀ v, JSON_parse text = Some v -> truthy v = true) ->
  truthy (getData text) = false
  ↔ text ∈ [""; "false"; "null"; "0"; "NaN"].
Proof.
  intros Hparse. unfold getData.
  rewrite !elem_of_cons, elem_of_nil.
  destruct (bool_decide (text = "true")) eqn:E1.
  { apply bool_decide_eq_true in E1 as ->. simpl. split; [done|].
    intros [?|[?|[?|[?|[?|[]]]]]]; done. }
  destruct (bool_decide (text = "false")) eqn:E2.
  { apply bool_decide_eq_true in E2 as ->. simpl. split; [|done].
    intros _. right; by left. }
  destruct (bool_decide (text = "null")) eqn:E3.
  { apply bool_decide_eq_true in E3 as ->. simpl. split; [|done].
    intros _. right; right; by left. }
  apply bool_decide_eq_false in E1, E2, E3.
  assert (Hstr : truthy (JStr text) = false ↔ text = "").
  { simpl. by rewrite negb_false_iff, bool_decide_eq_true. }
  destruct (Data.canonical_number text) eqn:Hnum.
  - simpl. rewrite negb_false_iff, orb_true_iff, !bool_decide_eq_true.
    split; [tauto|]. intros [->|[?|[?|[?|[?|[]]]]]]; try tauto.
    vm_compute in Hnum. done.
  - assert (Hne : text ≠ "0" ∧ text ≠ "NaN").
    { split; intros ->; vm_compute in Hnum; done. }
    assert (Hplain : text = "" ↔
              text = "" ∨ text = "false" ∨ text = "null" ∨ text = "0"
              ∨ text = "NaN" ∨ False) by tauto.
    destruct (Data.rbrace text) eqn:Hbr; [|by rewrite Hstr].
    destruct (JSON_parse text) as [v|] eqn:Hv; simpl default;
      [|by rewrite Hstr].
    rewrite (Hparse v) by done. split; [done|].
    intros [->|[?|[?|[?|[?|[]]]]]]; try tauto.
    vm_compute in Hbr. done.
Qed.

End Activation.

(** C1.  A target whose active value is the text [0] reads that value
    as the number [0], which is falsy: although the collected values
    contain ["0"], and [hasInputValues] on the criterion would answer
    [true], [determineActive] returns [undefined]. *)
Theorem determineActive_zero (parser : JsonParser) :
  getAttributeValue Pages.zero_target (activeValue default_attributes)
  = JNum "0"
  ∧ hasInputValues [JStr "0"] (JNum "0") = Some true
  ∧ determineActive default_attributes Pages.zero_target [JStr "0"]
    = Some JUndefined.
Proof. repeat split; vm_compute; reflexivity. Qed.

(** ** The plan on one element *)

Lemma elem_of_add_names (names cur : list string) (c : string) :
  c ∈ fold_left JQ.add_one names cur ↔ c ∈ cur ∨ c ∈ names.
Proof.
  revert cur. induction names as [|n names IH]; intros cur; simpl.
  - rewrite elem_of_nil. tauto.
  - rewrite IH, elem_of_cons. unfold JQ.add_one. case_bool_decide.
    + split; [tauto|]. intros [?|[->|?]]; tauto.
    + rewrite elem_of_app, elem_of_cons, elem_of_nil. tauto.
Qed.

Lemma elem_of_remove_names (names cur : list string) (c : string) :
  c ∈ fold_left JQ.remove_one names cur ↔ c ∈ cur ∧ c ∉ names.
Proof.
  revert cur. induction names as [|n names IH]; intros cur; simpl.
  - rewrite elem_of_nil. tauto.
  - rewrite IH, not_elem_of_cons. unfold JQ.remove_one.
    rewrite list_elem_of_filter. tauto.
Qed.

(** An empty list of class names names nothing: skipping the call, as
    the code does, and making it are the same. *)
Lemma tokens_empty (s : string) :
  ¬ 0 < String.length s -> Text.tokens s = [].
Proof. destruct s; simpl; [reflexivity | lia]. Qed.

Lemma toggleClass_attrs (A : Attributes) (el : element) (isActive : jsval) :
  attrs (toggleClass A el isActive) = attrs el
  ∧ listeners (toggleClass A el isActive) = listeners el.
Proof.
  unfold toggleClass.
  destruct (truthy isActive); repeat case_bool_decide; split; reflexivity.
Qed.

Lemma toggleClass_classes (A : Attributes) (el : element) (b : bool)
    (c : string) :
  let on := Text.tokens (default "" (attrs el !! activeClass A)) in
  let off := Text.tokens (default "" (attrs el !! inactiveClass A)) in
  c ∈ classes (toggleClass A el (JBool b))
  ↔ if b then (c ∈ classes el ∨ c ∈ on) ∧ c ∉ off
    else (c ∈ classes el ∧ c ∉ on) ∨ c ∈ off.
Proof.
  intros on off. unfold toggleClass, JQ.attr. fold on. fold off.
  assert (Hon : ¬ 0 < String.length (default "" (attrs el !! activeClass A))
                -> on = []) by apply tokens_empty.
  assert (Hoff : ¬ 0 < String.length (default "" (attrs el !! inactiveClass A))
                 -> off = []) by apply tokens_empty.
  destruct b; simpl; repeat case_bool_decide; simpl;
    rewrite ?elem_of_add_names, ?elem_of_remove_names; simpl;
    rewrite ?elem_of_add_names, ?elem_of_remove_names;
    try rewrite (Hon ltac:(done)); try rewrite (Hoff ltac:(done));
    rewrite ?elem_of_nil; tauto.
Qed.

Lemma length_pos (s : string) : 0 < String.length s ↔ s ≠ "".
Proof. destruct s; simpl; [split; [lia | done] | split; [done | lia]]. Qed.

Lemma set_directive_attrs (d : parsed) (el : element) :
  attrs (set_directive d el) = set_in d (attrs el)
  ∧ classes (set_directive d el) = classes el
  ∧ listeners (set_directive d el) = listeners el.
Proof.
  unfold set_directive, set_in.
  repeat case_bool_decide; rewrite ?length_pos in *; simpl; tauto.
Qed.

Lemma remove_directive_attrs (d : parsed) (el : element) :
  attrs (remove_directive d el) = remove_in d (attrs el)
  ∧ classes (remove_directive d el) = classes el
  ∧ listeners (remove_directive d el) = listeners el.
Proof.
  unfold remove_directive, remove_in.
  repeat case_bool_decide; rewrite ?length_pos in *; simpl; tauto.
Qed.

Lemma toggleAttribute_attrs (A : Attributes) (el : element) (b : bool) :
  let a := parseToggleAttribute el (activeAttribute A) in
  let i := parseToggleAttribute el (inactiveAttribute A) in
  attrs (toggleAttribute A el (JBool b))
  = (if b then remove_in i (set_in a (attrs el))
     else set_in i (remove_in a (attrs el)))
  ∧ classes (toggleAttribute A el (JBool b)) = classes el
  ∧ listeners (toggleAttribute A el (JBool b)) = listeners el.
Proof.
  intros a i. unfold toggleAttribute. fold a. fold i. destruct b; simpl.
  - destruct (remove_directive_attrs i (set_directive a el)) as (-> & -> & ->).
    destruct (set_directive_attrs a el) as (-> & -> & ->). done.
  - destruct (set_directive_attrs i (remove_directive a el)) as (-> & -> & ->).
    destruct (remove_directive_attrs a el) as (-> & -> & ->). done.
Qed.

(** [parseToggleAttribute] depends on the one attribute it reads. *)
Lemma parse_lookup (e1 e2 : element) (name : string) :
  attrs e1 !! name = attrs e2 !! name ->
  parseToggleAttribute e1 name = parseToggleAttribute e2 name.
Proof.
  intros Heq. unfold parseToggleAttribute, JQ.has_attr, JQ.attr. by rewrite Heq.
Qed.

(** What the plan leaves on the element, in terms of the element it
    started from. *)
Lemma apply_plan_look (A : Attributes) (b : bool) (el : element) :
  let a := parseToggleAttribute el (activeAttribute A) in
  let i := parseToggleAttribute el (inactiveAttribute A) in
  let on := Text.tokens (default "" (attrs el !! activeClass A)) in
  let off := Text.tokens (default "" (attrs el !! inactiveClass A)) in
  attrs (apply_plan A b el)
  = (if b then remove_in i (set_in a (attrs el))
     else set_in i (remove_in a (attrs el)))
  ∧ (∀ c, c ∈ classes (apply_plan A b el)
          ↔ if b then (c ∈ classes el ∨ c ∈ on) ∧ c ∉ off
            else (c ∈ classes el ∧ c ∉ on) ∨ c ∈ off)
  ∧ listeners (apply_plan A b el) = listeners el.
Proof.
  intros a i on off. unfold apply_plan.
  destruct (toggleClass_attrs A el (JBool b)) as [Hat Hls].
  destruct (toggleAttribute_attrs A (toggleClass A el (JBool b)) b)
    as (Hattrs & Hcls & Hlis).
  rewrite Hattrs, Hcls, Hlis, Hls, Hat.
  rewrite !(parse_lookup (toggleClass A el (JBool b)) el) by by rewrite Hat.
  split; [done|]. split; [|done]. intros c. apply toggleClass_classes.
Qed.

Lemma apply_plan_keeps_markers (A : Attributes) (b : bool) (el : element)
    (m : string) :
  (∀ n, n ∈ plan_names A el -> n ∉ plan_markers A) ->
  m ∈ plan_markers A ->
  attrs (apply_plan A b el) !! m = attrs el !! m.
Proof.
  intros Hapart Hm.
  destruct (apply_plan_look A b el) as (-> & _ & _).
  assert (Ha : attribute (parseToggleAttribute el (activeAttribute A)) ≠ m).
  { intros <-. eapply Hapart; [|exact Hm]. unfold plan_names. by left. }
  assert (Hi : attribute (parseToggleAttribute el (inactiveAttribute A)) ≠ m).
  { intros <-. eapply Hapart; [|exact Hm]. unfold plan_names. right; by left. }
  unfold set_in, remove_in.
  destruct b; repeat case_bool_decide;
    rewrite ?lookup_insert_ne, ?lookup_delete_ne by done;
    rewrite ?lookup_insert_ne, ?lookup_delete_ne by done; done.
Qed.

Lemma lookup_set_in (d : parsed) (m : gmap string string) (k : string) :
  set_in d m !! k
  = if bool_decide (attribute d ≠ "" ∧ value d ≠ "" ∧ attribute d = k)
    then Some (value d) else m !! k.
Proof.
  unfold set_in. repeat case_bool_decide; try tauto.
  - destruct_and!. subst. apply lookup_insert_eq.
  - apply lookup_insert_ne. tauto.
Qed.

Lemma lookup_remove_in (d : parsed) (m : gmap string string) (k : string) :
  remove_in d m !! k
  = if bool_decide (attribute d ≠ "" ∧ attribute d = k)
    then None else m !! k.
Proof.
  unfold remove_in. repeat case_bool_decide; try tauto.
  - destruct_and!. subst. apply lookup_delete_eq.
  - apply lookup_delete_ne. tauto.
Qed.

Lemma in_plan_markers (A : Attributes) :
  activeClass A ∈ plan_markers A ∧ inactiveClass A ∈ plan_markers A
  ∧ activeAttribute A ∈ plan_markers A ∧ inactiveAttribute A ∈ plan_markers A.
Proof. unfold plan_markers. rewrite !elem_of_cons. tauto. Qed.

Lemma same_look_trans (a b c : element) :
  same_look a b -> same_look b c -> same_look a c.
Proof.
  intros [Hab Hcab] [Hbc Hcbc]. split; [congruence|].
  intros x. by rewrite Hcab.
Qed.

(** Deactivating after activating leaves what deactivating at once
    would have left, when the inactive directive is absent or carries a
    value and no directive names a marker attribute. *)
Lemma deactivate_after_activate (A : Attributes) (el : element) :
  (∀ n, n ∈ plan_names A el -> n ∉ plan_markers A) ->
  (attribute (parseToggleAttribute el (inactiveAttribute A)) ≠ "" ->
   value (parseToggleAttribute el (inactiveAttribute A)) ≠ "") ->
  same_look (apply_plan A false (apply_plan A true el))
            (apply_plan A false el).
Proof.
  intros Hapart Hvalued.
  set (el1 := apply_plan A true el).
  assert (Hkeep : ∀ m, m ∈ plan_markers A -> attrs el1 !! m = attrs el !! m).
  { intros m Hm. by apply apply_plan_keeps_markers. }
  destruct (apply_plan_look A false el1) as (Hat2 & Hcl2 & _).
  destruct (apply_plan_look A true el) as (Hat1 & Hcl1 & _). fold el1 in Hat1, Hcl1.
  destruct (apply_plan_look A false el) as (Hat0 & Hcl0 & _).
  destruct (in_plan_markers A) as (Hm1 & Hm2 & Hm3 & Hm4).
  rewrite !(parse_lookup el1 el) in Hat2 by by apply Hkeep.
  rewrite !Hkeep in Hcl2 by done.
  split.
  - rewrite Hat2, Hat1, Hat0.
    set (a := parseToggleAttribute el (activeAttribute A)) in *.
    set (i := parseToggleAttribute el (inactiveAttribute A)) in *.
    apply map_eq. intros k.
    rewrite !lookup_set_in, !lookup_remove_in, !lookup_set_in.
    repeat case_bool_decide; try reflexivity; exfalso; tauto.
  - intros c. rewrite Hcl2, Hcl0, Hcl1.
    destruct (decide (c ∈ Text.tokens (default "" (attrs el !! inactiveClass A))));
      tauto.
Qed.

(** ** Tame elements *)

Lemma directive_ok_apart (A : Attributes) (d : parsed) :
  directive_ok A d = true -> attribute d = "" ∨ attribute d ∉ markers A.
Proof.
  unfold directive_ok. rewrite orb_true_iff, !andb_true_iff.
  intros [Hempty|[[[_ _] Hout] _]].
  - left. by apply bool_decide_eq_true in Hempty.
  - right. by apply negb_true_iff, bool_decide_eq_false in Hout.
Qed.

Lemma tame_spec (A : Attributes) (el : element) :
  tame A el = true ->
  (∀ m, m ∈ markers A -> Names.well_formed m = true)
  ∧ ∀ n, n ∈ plan_names A el -> n = "" ∨ n ∉ markers A.
Proof.
  unfold tame. rewrite !andb_true_iff, forallb_forall.
  intros [[Hm Ha] Hi]. split.
  - intros m Hin. apply Hm. by apply list_elem_of_In.
  - intros n Hn. unfold plan_names in Hn.
    apply elem_of_cons in Hn as [->|Hn]; [by apply directive_ok_apart|].
    apply list_elem_of_singleton in Hn as ->. by apply directive_ok_apart.
Qed.

Lemma well_formed_nonempty (name : string) :
  Names.well_formed name = true -> name ≠ "".
Proof. by destruct name. Qed.

(** No directive of a tame element names a marker attribute. *)
Lemma tame_apart (A : Attributes) (el : element) (n : string) :
  tame A el = true -> n ∈ plan_names A el -> n ∉ markers A.
Proof.
  intros Ht Hn. destruct (tame_spec A el Ht) as [Hwf Hnames].
  destruct (Hnames n Hn) as [->|Hout]; [|done].
  intros Hin. by apply Hwf, well_formed_nonempty in Hin.
Qed.

Lemma plan_markers_markers (A : Attributes) (m : string) :
  m ∈ plan_markers A -> m ∈ markers A.
Proof.
  unfold plan_markers, markers. simpl. rewrite !elem_of_cons, !elem_of_nil.
  tauto.
Qed.

Lemma value_markers_markers (A : Attributes) :
  activeValue A ∈ markers A ∧ inactiveValue A ∈ markers A.
Proof. unfold markers. simpl. rewrite !elem_of_cons. tauto. Qed.

Lemma apply_plan_keeps (A : Attributes) (b : bool) (el : element)
    (m : string) :
  (∀ n, n ∈ plan_names A el -> n ≠ m) ->
  attrs (apply_plan A b el) !! m = attrs el !! m.
Proof.
  intros Hapart.
  destruct (apply_plan_look A b el) as (-> & _ & _).
  assert (Ha : attribute (parseToggleAttribute el (activeAttribute A)) ≠ m).
  { apply Hapart. unfold plan_names. by left. }
  assert (Hi : attribute (parseToggleAttribute el (inactiveAttribute A)) ≠ m).
  { apply Hapart. unfold plan_names. right; by left. }
  unfold set_in, remove_in.
  destruct b; repeat case_bool_decide;
    rewrite ?lookup_insert_ne, ?lookup_delete_ne by done;
    rewrite ?lookup_insert_ne, ?lookup_delete_ne by done; done.
Qed.

(** The plan of a tame element leaves every marker attribute alone. *)
Lemma apply_plan_keeps_tame (A : Attributes) (b : bool) (el : element)
    (m : string) :
  tame A el = true -> m ∈ markers A ->
  attrs (apply_plan A b el) !! m = attrs el !! m.
Proof.
  intros Ht Hm. apply apply_plan_keeps. intros n Hn ->.
  by apply (tame_apart A el m Ht Hn).
Qed.

Lemma apply_plan_tame (A : Attributes) (b : bool) (el : element) :
  tame A el = true -> tame A (apply_plan A b el) = true.
Proof.
  intros Ht. unfold tame.
  rewrite !(parse_lookup (apply_plan A b el) el); [done| |];
    apply apply_plan_keeps_tame; try done;
    apply plan_markers_markers, in_plan_markers.
Qed.

(** The key [.data()] reads for a well-formed [data-] name is that
    name. *)
Lemma hyphenate_plain (s : string) :
  forallb Names.is_name_char (list_ascii_of_string s) = true ->
  Data.hyphenate s = s.
Proof.
  induction s as [|c s IH]; simpl; [done|].
  rewrite andb_true_iff. intros [Hc Hs]. rewrite (IH Hs).
  rewrite bool_decide_eq_false_2; [done|].
  unfold Names.is_name_char, Names.is_lower, Data.is_digit in Hc.
  rewrite !orb_true_iff, !bool_decide_eq_true in Hc.
  destruct Hc as [[[Hc|Hc]| ->]| ->]; try lia; vm_compute; lia.
Qed.

Lemma data_name (name : string) :
  Names.well_formed name = true ->
  Text.starts_with "data-" name = true ->
  ("data-" ++ Data.hyphenate (Text.drop 5 name))%string = name.
Proof.
  intros Hwf Hst.
  destruct name as [|c1 [|c2 [|c3 [|c4 [|c5 rest]]]]]; simpl in Hst;
    rewrite ?andb_true_iff, ?bool_decide_eq_true in Hst;
    try (exfalso; destruct_and?; discriminate).
  destruct Hst as (<- & <- & <- & <- & <- & _).
  simpl in Hwf. rewrite ?andb_true_iff in Hwf.
  simpl. rewrite hyphenate_plain; [done|]. destruct_and?; done.
Qed.

Section Tame.

Context `{JsonParser}.

Lemma getAttributeValue_lookup (e1 e2 : element) (name : string) :
  Names.well_formed name = true ->
  attrs e1 !! name = attrs e2 !! name ->
  getAttributeValue e1 name = getAttributeValue e2 name.
Proof.
  intros Hwf Heq. unfold getAttributeValue, JQ.has_attr, JQ.attr, data.
  rewrite Heq.
  destruct (Text.starts_with "data-" name) eqn:Hst; [|done].
  by rewrite (data_name name Hwf Hst), Heq.
Qed.

Lemma apply_plan_readable (A : Attributes) (b : bool) (el : element) :
  tame A el = true -> readable A (apply_plan A b el) = readable A el.
Proof.
  intros Ht. unfold readable.
  destruct (value_markers_markers A) as [Ha Hi].
  pose proof (proj1 (tame_spec A el Ht)) as Hwf.
  rewrite (getAttributeValue_lookup (apply_plan A b el) el (activeValue A)),
    (getAttributeValue_lookup (apply_plan A b el) el (inactiveValue A));
    auto using apply_plan_keeps_tame.
Qed.

End Tame.

(** ** [update] on a list of elements *)

(** [isActive] is only ever tested for truthiness. *)
Lemma plan_of_jsval (A : Attributes) (el : element) (isActive : jsval) :
  toggleAttribute A (toggleClass A el isActive) isActive
  = apply_plan A (truthy isActive) el.
Proof.
  unfold apply_plan, toggleAttribute, toggleClass. simpl.
  by destruct (truthy isActive).
Qed.

Section UpdateList.

Context `{JsonParser}.

(** What [update] leaves of an element is one of its two plans. *)
Lemma update_toggle_plan (A : Attributes) (inputValues : list jsval)
    (toggle toggle' : element) :
  update_toggle A inputValues toggle = Some toggle' ->
  ∃ b, toggle' = apply_plan A b toggle.
Proof.
  unfold update_toggle.
  destruct (determineActive A toggle inputValues) as [r|]; [|done].
  simpl. rewrite plan_of_jsval. intros [= <-]. eauto.
Qed.

(** On a readable element [update] does not throw. *)
Lemma update_toggle_returns (A : Attributes) (inputValues : list jsval)
    (toggle : element) :
  readable A toggle = true ->
  ∃ b, update_toggle A inputValues toggle = Some (apply_plan A b toggle).
Proof.
  intros Hr. unfold update_toggle.
  destruct (determineActive_returns A toggle inputValues Hr) as (r & -> & _).
  simpl. rewrite plan_of_jsval. eauto.
Qed.

(** On distinct, readable elements [update] returns, and has then
    applied to each element of the list the plan [determineActive]
    chooses for it and left the others as they were. *)
Lemma update_pointwise (A : Attributes) (toggles : list nat)
    (inputValues : list jsval) :
  NoDup toggles ->
  ∀ page,
    (∀ j el, j ∈ toggles -> page !! j = Some el -> readable A el = true) ->
    ∃ page',
      update A toggles inputValues page = Some page'
      ∧ length page' = length page
      ∧ (∀ j el, j ∈ toggles -> page !! j = Some el ->
           ∃ r, determineActive A el inputValues = Some r
                ∧ page' !! j = Some (apply_plan A (truthy r) el))
      ∧ (∀ j, j ∉ toggles -> page' !! j = page !! j).
Proof.
  induction toggles as [|i toggles IH]; intros Hnd page Hread; simpl.
  - exists page. split; [done|]. split; [done|]. split; [|done].
    intros j el Hj. by apply elem_of_nil in Hj.
  - apply NoDup_cons in Hnd as [Hi Hnd].
    destruct (page !! i) as [toggle|] eqn:Hlook.
    + assert (Hr : readable A toggle = true) by (apply (Hread i); [left|done]).
      unfold update_toggle.
      destruct (determineActive_returns A toggle inputValues Hr)
        as (r & Hdet & _).
      rewrite Hdet. simpl. rewrite plan_of_jsval.
      set (page1 := <[i := apply_plan A (truthy r) toggle]> page).
      assert (Hother : ∀ j, j ≠ i -> page1 !! j = page !! j).
      { intros j Hne. unfold page1. by rewrite list_lookup_insert_ne. }
      destruct (IH Hnd page1) as (page' & Hup & Hlen & Hin & Hout).
      { intros j el Hj Hel. apply (Hread j el); [by right|].
        rewrite <- Hother; [done|]. by intros ->. }
      exists page'. split; [done|]. split.
      { rewrite Hlen. apply length_insert. }
      split.
      * intros j el Hj Hel. apply elem_of_cons in Hj as [->|Hj].
        -- exists r. simplify_eq. split; [done|]. rewrite (Hout i Hi).
           unfold page1. apply list_lookup_insert_eq.
           by eapply lookup_lt_Some.
        -- apply (Hin j el Hj). rewrite Hother; [done|]. by intros ->.
      * intros j Hj. apply not_elem_of_cons in Hj as [Hne Hj].
        by rewrite (Hout j Hj), Hother.
    + destruct (IH Hnd page) as (page' & Hup & Hlen & Hin & Hout).
      { intros j el Hj Hel. apply (Hread j el); [by right|done]. }
      exists page'. split; [done|]. split; [done|]. split.
      * intros j el Hj Hel. apply elem_of_cons in Hj as [->|Hj];
          [congruence|by apply Hin].
      * intros j Hj. apply not_elem_of_cons in Hj as [_ Hj]. by apply Hout.
Qed.

End UpdateList.

(** ** Indeterminate activation *)

(** C7 as stated fails: a target with neither value marker resolves to
    [undefined], and [update] then treats it as inactive: here it loses
    the class [visible] and receives the attribute [title].  Through
    [init] the same happens to a valid target whose active value reads
    as falsy: it loses the class it had. *)
Lemma update_changes_indeterminate_target :
  determineActive (H := Json.string_arrays) default_attributes
    Pages.unconfigured [] = Some JUndefined
  ∧ update (H := Json.string_arrays) default_attributes [0] []
      [Pages.unconfigured] = Some [Pages.unconfigured_after]
  ∧ classes Pages.unconfigured = ["visible"]
  ∧ classes Pages.unconfigured_after = []
  ∧ attrs Pages.unconfigured !! "title" = None
  ∧ attrs Pages.unconfigured_after !! "title" = Some "off"
  ∧ determineActive (H := Json.string_arrays) default_attributes
      Pages.zero_shown [JStr "0"] = Some JUndefined
  ∧ (st ← init (H := Json.string_arrays) (Pages.fresh Pages.zero_shown_page)
           NoScope NoOptions;
     classes <$> page st !! 1) = Some [].
Proof. repeat split; vm_compute; reflexivity. Qed.

(** C7, amended.  When [determineActive] returns [undefined] for a
    target, [update] treats the target as inactive.  For a list of
    distinct elements, all tame and readable: [update] returns, and the
    target is left with the active class names removed and the inactive
    ones added, the active attribute removed and the inactive attribute,
    when its directive has a value, assigned. *)
Theorem update_indeterminate `{JsonParser} (A : Attributes)
    (toggles : list nat) (inputValues : list jsval) (page : list element)
    (i : nat) (toggle : element) :
  NoDup toggles ->
  (∀ j el, j ∈ toggles -> page !! j = Some el ->
           tame A el = true ∧ readable A el = true) ->
  i ∈ toggles ->
  page !! i = Some toggle ->
  determineActive A toggle inputValues = Some JUndefined ->
  ∃ page' toggle',
    update A toggles inputValues page = Some page'
    ∧ page' !! i = Some toggle'
    ∧ attrs toggle'
      = set_in (parseToggleAttribute toggle (inactiveAttribute A))
          (remove_in (parseToggleAttribute toggle (activeAttribute A))
             (attrs toggle))
    ∧ ∀ c, c ∈ classes toggle'
           ↔ (c ∈ classes toggle
              ∧ c ∉ Text.tokens (default "" (attrs toggle !! activeClass A)))
             ∨ c ∈ Text.tokens (default "" (attrs toggle !! inactiveClass A)).
Proof.
  intros Hnd Hall Hi Hlook Hund.
  destruct (update_pointwise A toggles inputValues Hnd page)
    as (page' & Hup & _ & Hin & _).
  { intros j el Hj Hel. by apply (Hall j el). }
  exists page', (apply_plan A false toggle). split; [done|].
  destruct (Hin i toggle Hi Hlook) as (r & Hr & Hat).
  rewrite Hund in Hr. injection Hr as <-. split; [exact Hat|].
  destruct (apply_plan_look A false toggle) as (Hattrs & Hcl & _). done.
Qed.

Lemma update_indeterminate_witness :
  ∃ page' toggle',
    update (H := Json.string_arrays) default_attributes [0; 1] [JStr "1"]
      [Pages.unconfigured; Pages.hidden_box] = Some page'
    ∧ page' !! 0 = Some toggle'
    ∧ attrs toggle' !! "title" = Some "off"
    ∧ ("visible" ∈ classes toggle' ↔ False).
Proof.
  destruct (update_indeterminate (H := Json.string_arrays) default_attributes
              [0; 1] [JStr "1"] [Pages.unconfigured; Pages.hidden_box] 0
              Pages.unconfigured)
    as (page' & toggle' & Hup & Hat & Hattrs & Hcl).
  - apply NoDup_cons. split; [|apply NoDup_singleton].
    intros Hin. apply list_elem_of_singleton in Hin. discriminate Hin.
  - intros j el Hj Hel.
    destruct j as [|[|j]]; simpl in Hel; [| |by apply elem_of_cons in Hj as
      [Hj|Hj]; [discriminate Hj | apply elem_of_cons in Hj as [Hj|Hj];
      [discriminate Hj | by apply elem_of_nil in Hj]]];
      injection Hel as <-; split; vm_compute; reflexivity.
  - left.
  - reflexivity.
  - vm_compute. reflexivity.
  - exists page', toggle'. split; [exact Hup|]. split; [exact Hat|].
    split; [rewrite Hattrs; vm_compute; reflexivity|].
    rewrite (Hcl "visible"). split; [|done].
    intros [[_ Hout]|Hin].
    + apply Hout. vm_compute. left.
    + vm_compute in Hin. by apply elem_of_nil in Hin.
Defined.

(** ** Activating and deactivating *)

(** C8 as stated fails: an element whose markup already carries the
    active class loses it. *)
Lemma round_trip_loses_initial_class :
  classes Pages.shown = ["visible"]
  ∧ classes (apply_plan default_attributes false
               (apply_plan default_attributes true Pages.shown)) = []
  ∧ ¬ same_look (apply_plan default_attributes false
                   (apply_plan default_attributes true Pages.shown))
                Pages.shown.
Proof.
  split; [reflexivity|]. split; [vm_compute; reflexivity|].
  intros [_ Hcl]. specialize (Hcl "visible").
  assert (Hin : "visible" ∈ classes Pages.shown) by (simpl; left).
  apply Hcl in Hin. vm_compute in Hin. by apply elem_of_nil in Hin.
Qed.

(** Nor is an attribute that the inactive directive sets taken back. *)
Lemma round_trip_sets_inactive_attribute :
  attrs Pages.titled !! "title" = None
  ∧ attrs (apply_plan default_attributes false
             (apply_plan default_attributes true Pages.titled)) !! "title"
    = Some "off".
Proof. split; vm_compute; reflexivity. Qed.

(** C8, amended.  When the element is tame and in its inactive state
    (the plan for [isActive = false] leaves its classes and attributes
    as they are), and the inactive attribute directive, if there is one,
    carries a value, then the plan for [true] followed by the plan for
    [false] restores that state: the same attributes and the same
    classes. *)
Theorem round_trip_from_inactive (A : Attributes) (el : element) :
  tame A el = true ->
  (attribute (parseToggleAttribute el (inactiveAttribute A)) ≠ "" ->
   value (parseToggleAttribute el (inactiveAttribute A)) ≠ "") ->
  same_look (apply_plan A false el) el ->
  same_look (apply_plan A false (apply_plan A true el)) el.
Proof.
  intros Htame Hvalued Hinactive.
  eapply same_look_trans; [|exact Hinactive].
  apply deactivate_after_activate; [|done].
  intros n Hn Hm. by apply (tame_apart A el n Htame Hn), plan_markers_markers.
Qed.

Lemma round_trip_from_inactive_witness :
  tame default_attributes Pages.hidden_box = true
  ∧ same_look (apply_plan default_attributes false Pages.hidden_box)
              Pages.hidden_box
  ∧ same_look (apply_plan default_attributes false
                 (apply_plan default_attributes true Pages.hidden_box))
              Pages.hidden_box.
Proof.
  assert (Hinactive : same_look
            (apply_plan default_attributes false Pages.hidden_box)
            Pages.hidden_box).
  { split.
    - destruct (apply_plan_look default_attributes false Pages.hidden_box)
        as (-> & _ & _).
      assert (parseToggleAttribute Pages.hidden_box
                (activeAttribute default_attributes)
              = Parsed "checked" "checked") as -> by (vm_compute; reflexivity).
      assert (parseToggleAttribute Pages.hidden_box
                (inactiveAttribute default_attributes)
              = Parsed "title" "off") as -> by (vm_compute; reflexivity).
      unfold set_in, remove_in. simpl.
      rewrite delete_id by (vm_compute; reflexivity).
      apply insert_id. vm_compute; reflexivity.
    - intros c.
      assert (classes (apply_plan default_attributes false Pages.hidden_box)
              = classes Pages.hidden_box) as -> by (vm_compute; reflexivity).
      reflexivity. }
  split; [vm_compute; reflexivity|]. split; [exact Hinactive|].
  apply (round_trip_from_inactive default_attributes Pages.hidden_box).
  - vm_compute. reflexivity.
  - intros _. vm_compute. discriminate.
  - exact Hinactive.
Defined.

(** ** What [init] does to the page *)

Section Update.

Context `{JsonParser}.

(** A relation between the states of the element at each position that
    holds across the steps of [init]: binding a handler, and applying a
    plan to an element that belongs to a group. *)
Variable R : nat -> element -> element -> Prop.
Variable member : nat -> Prop.
Variable A : Attributes.

Hypothesis R_refl : ∀ j el, R j el el.
Hypothesis R_trans : ∀ j a b c, R j a b -> R j b c -> R j a c.
Hypothesis R_bind : ∀ j h el, R j el (bind_input h el).
Hypothesis R_plan : ∀ j b el, member j -> R j el (apply_plan A b el).

Lemma related_refl (page : list element) : related R page page.
Proof. split; [done|]. intros j el el' H1 H2. simplify_eq. apply R_refl. Qed.

Lemma related_trans (p1 p2 p3 : list element) :
  related R p1 p2 -> related R p2 p3 -> related R p1 p3.
Proof.
  intros [Hl12 H12] [Hl23 H23]. split; [congruence|].
  intros j el el' H1 H3.
  destruct (p2 !! j) as [el2|] eqn:H2.
  - eapply R_trans; eauto.
  - apply lookup_ge_None in H2. apply lookup_lt_Some in H1. lia.
Qed.

Lemma related_insert (page : list element) (i : nat) (el el' : element) :
  page !! i = Some el -> R i el el' -> related R page (<[i := el']> page).
Proof.
  intros Hi HR. split; [apply length_insert|].
  intros j x x' Hx Hx'. destruct (decide (i = j)) as [<-|Hne].
  - rewrite list_lookup_insert_eq in Hx' by by eapply lookup_lt_Some.
    by simplify_eq.
  - rewrite list_lookup_insert_ne in Hx' by done. simplify_eq. apply R_refl.
Qed.

Lemma bind_inputs_related (h : handler) (inputs : list nat) :
  ∀ page, related R page (bind_inputs h inputs page).
Proof.
  induction inputs as [|i inputs IH]; intros page; simpl.
  - apply related_refl.
  - destruct (page !! i) as [input|] eqn:Hi; [|apply IH].
    eapply related_trans; [|apply IH].
    eapply related_insert; [done | apply R_bind].
Qed.

Lemma update_related (toggles : list nat) (inputValues : list jsval) :
  Forall member toggles ->
  ∀ page page', update A toggles inputValues page = Some page' ->
                related R page page'.
Proof.
  induction toggles as [|i toggles IH]; intros Hmem page page'; simpl.
  - intros [= <-]. apply related_refl.
  - apply Forall_cons in Hmem as [Hi Hmem].
    destruct (page !! i) as [toggle|] eqn:Hlook; [|by apply IH].
    destruct (update_toggle A inputValues toggle) as [toggle'|] eqn:Hone;
      [|done].
    destruct (update_toggle_plan A inputValues toggle toggle' Hone) as [b ->].
    simpl. intros Hup. eapply related_trans; [|by eapply IH].
    eapply related_insert; [done | by apply R_plan].
Qed.

Lemma init_group_related (inScope : nat -> bool) (page page' : list element)
    (g : string * list nat) :
  Forall member g.2 ->
  init_group A inScope page g = Some page' -> related R page page'.
Proof.
  destruct g as [inputName inputToggles]. simpl. intros Hmem.
  case_bool_decide; [|intros [= <-]; apply related_refl].
  intros Hup. eapply related_trans; [apply bind_inputs_related|].
  by eapply update_related.
Qed.

Lemma init_groups_related (inScope : nat -> bool) (gs : groups) :
  Forall (fun g => Forall member g.2) gs ->
  ∀ page page', init_groups A inScope gs page = Some page' ->
                related R page page'.
Proof.
  induction gs as [|g gs IH]; intros Hmem page page'; simpl.
  - intros [= <-]. apply related_refl.
  - apply Forall_cons in Hmem as [Hg Hmem].
    destruct (init_group A inScope page g) as [page1|] eqn:Hg1; [|done].
    simpl. intros Hrest. eapply related_trans.
    + by eapply init_group_related.
    + by eapply IH.
Qed.

End Update.

(** ** Registration: [validateToggle] and the groups of [init] *)



Lemma filed_push (inputName : string) (i j : nat) (toggles : groups) :
  filed (push_toggle inputName i toggles) j ↔ j = i ∨ filed toggles j.
Proof.
  unfold filed. induction toggles as [|[k ms] rest IH]; simpl.
  - split.
    + intros (n & m & Hin & Hj). apply list_elem_of_singleton in Hin.
      simplify_eq. apply list_elem_of_singleton in Hj. by left.
    + intros [->|(n & m & Hin & _)]; [|by apply elem_of_nil in Hin].
      exists inputName, [i]. split; apply list_elem_of_singleton; done.
  - case_bool_decide as Hk.
    + subst k. split.
      * intros (n & m & Hin & Hj). apply elem_of_cons in Hin as [Heq|Hin].
        -- injection Heq as -> ->. apply elem_of_app in Hj as [Hj|Hj].
           ++ right. exists inputName, ms. split; [left | done].
           ++ apply list_elem_of_singleton in Hj. by left.
        -- right. exists n, m. split; [by right | done].
      * intros [->|(n & m & Hin & Hj)].
        -- exists inputName, (ms ++ [i]). split; [left|].
           apply elem_of_app. right. by apply list_elem_of_singleton.
        -- apply elem_of_cons in Hin as [Heq|Hin].
           ++ injection Heq as -> ->. exists inputName, (ms ++ [i]). split; [left|].
              apply elem_of_app. by left.
           ++ exists n, m. split; [by right | done].
    + split.
      * intros (n & m & Hin & Hj). apply elem_of_cons in Hin as [Heq|Hin].
        -- injection Heq as -> ->. right. exists k, ms. split; [left | done].
        -- destruct (proj1 IH) as [->|(n' & m' & Hin' & Hj')]; eauto.
           right. exists n', m'. split; [by right | done].
      * intros [->|(n & m & Hin & Hj)].
        -- destruct (proj2 IH (or_introl eq_refl)) as (n' & m' & Hin' & Hj').
           exists n', m'. split; [by right | done].
        -- apply elem_of_cons in Hin as [Heq|Hin].
           ++ injection Heq as -> ->. exists k, ms. split; [left | done].
           ++ destruct (proj2 IH) as (n' & m' & Hin' & Hj'); eauto.
              exists n', m'. split; [by right | done].
Qed.

Lemma register_filed (A : Attributes) (page : list element)
    (toggles toggles' : groups) (i : nat) :
  register A page toggles i = Some toggles' ->
  ∀ j, filed toggles' j ↔ (j = i ∧ accepted A page i) ∨ filed toggles j.
Proof.
  unfold register, accepted. intros Hreg j.
  destruct (page !! i) as [el|] eqn:Hi.
  - destruct (validateToggle A el) eqn:Hv.
    + destruct (attrs el !! toggled A) as [name|] eqn:Hname; simpl in Hreg.
      * case_bool_decide as Hlen.
        -- case_bool_decide; [done|]. simplify_eq. rewrite filed_push.
           apply length_pos in Hlen. split.
           ++ intros [->|?]; [left | by right]. split; [done|]. eauto 10.
           ++ intros [[-> _]|?]; [by left | by right].
        -- simplify_eq. rewrite length_pos in Hlen. split; [by right|].
           intros [[-> (el' & n & ? & ? & ? & ?)]|?]; [|done].
           simplify_eq. exfalso. apply Hlen. done.
      * simplify_eq. split; [by right|].
        intros [[-> (el' & n & ? & ? & ? & ?)]|?]; [|done]. simplify_eq; congruence.
    + simplify_eq. split; [by right|].
      intros [[-> (el' & n & ? & ? & ? & ?)]|?]; [|done]. simplify_eq; congruence.
  - simplify_eq. split; [by right|].
    intros [[-> (el' & n & ? & ? & ? & ?)]|?]; [|done]. simplify_eq; congruence.
Qed.

Lemma register_all_filed (A : Attributes) (page : list element)
    (found : list nat) :
  ∀ toggles toggles',
    register_all A page found toggles = Some toggles' ->
    ∀ j, filed toggles' j
         ↔ (j ∈ found ∧ accepted A page j) ∨ filed toggles j.
Proof.
  induction found as [|i found IH]; intros toggles toggles'; simpl.
  - intros [= <-] j. rewrite elem_of_nil. tauto.
  - destruct (register A page toggles i) as [t1|] eqn:Hreg; [|done]. simpl.
    intros Hrest j. rewrite (IH _ _ Hrest j), (register_filed _ _ _ _ _ Hreg j).
    rewrite elem_of_cons. split.
    + intros [[? ?]|[[-> ?]|?]]; tauto.
    + intros [[[->|?] ?]|?]; tauto.
Qed.

Lemma toggles_of_filed (A : Attributes) (inScope : nat -> bool)
    (page : list element) (toggles : groups) :
  toggles_of A inScope page = Some toggles ->
  ∀ j, filed toggles j ↔ inScope j = true ∧ accepted A page j.
Proof.
  unfold toggles_of. intros Hreg j.
  rewrite (register_all_filed _ _ _ _ _ Hreg j), elem_of_find. split.
  - intros [[[Hs _] Hacc]|(n & m & Hin & _)]; [done|].
    by apply elem_of_nil in Hin.
  - intros [Hs Hacc]. left. split; [|done]. split; [done|].
    destruct Hacc as (el & name & Hel & _ & Hname & _).
    exists el. split; [done|]. unfold JQ.has_attr.
    rewrite Hname. by apply bool_decide_eq_true_2.
Qed.

(** [enumerate] only reorders. *)
Lemma elem_of_insert_indexed (x y : N * (string * list nat))
    (l : list (N * (string * list nat))) :
  y ∈ insert_indexed x l ↔ y = x ∨ y ∈ l.
Proof.
  induction l as [|z l IH]; simpl.
  - rewrite list_elem_of_singleton, elem_of_nil. tauto.
  - case_bool_decide; rewrite !elem_of_cons; [tauto|]. rewrite IH. tauto.
Qed.

Lemma elem_of_enumerate (toggles : groups) (g : string * list nat) :
  g ∈ enumerate toggles ↔ g ∈ toggles.
Proof.
  unfold enumerate. rewrite elem_of_app, list_elem_of_fmap.
  assert (Hsorted : ∀ (l : list (N * (string * list nat))) y,
            y ∈ foldr insert_indexed [] l ↔ y ∈ l).
  { induction l as [|x l IH]; intros y; simpl; [done|].
    by rewrite elem_of_insert_indexed, IH, elem_of_cons. }
  rewrite list_elem_of_In, filter_In, <- list_elem_of_In, bool_decide_eq_true.
  split.
  - intros [(y & -> & Hy)|[Hg _]]; [|done].
    apply Hsorted, list_elem_of_omap in Hy as (g' & Hg' & Hy).
    destruct (array_index g'.1); simpl in Hy; by simplify_eq.
  - intros Hg. destruct (array_index g.1) as [n|] eqn:Hn; [left | by right].
    exists (n, g). split; [done|]. apply Hsorted, list_elem_of_omap.
    exists g. split; [done|]. by rewrite Hn.
Qed.

(** ** [init] as a whole *)

Lemma bind_input_look (h : handler) (el : element) :
  attrs (bind_input h el) = attrs el ∧ classes (bind_input h el) = classes el.
Proof. done. Qed.

Lemma filter_twice_not {X} (f : X -> bool) (l : list X) :
  List.filter f (List.filter (fun x => negb (f x)) l) = []
  ∧ List.filter (fun x => negb (f x)) (List.filter (fun x => negb (f x)) l)
    = List.filter (fun x => negb (f x)) l.
Proof.
  induction l as [|x l [IH1 IH2]]; simpl; [done|].
  destruct (f x) eqn:Hfx; simpl; [done|]. rewrite Hfx. simpl.
  by rewrite IH2.
Qed.

Lemma bind_input_rebound (h : handler) (el : element) :
  rebound el (bind_input h el).
Proof.
  unfold rebound, other_bindings, toggle_bindings, bind_input, on_change,
    off_change. simpl.
  rewrite !List.filter_app. simpl.
  destruct (filter_twice_not is_toggle_binding (listeners el)) as [-> ->].
  split; [by rewrite app_nil_r | right; eauto].
Qed.

Lemma rebound_trans (a b c : element) :
  rebound a b -> rebound b c -> rebound a c.
Proof.
  intros [Hab Tab] [Hbc Tbc]. split; [congruence|].
  destruct Tbc as [Tbc|[h Tbc]]; [|right; eauto].
  rewrite Tbc. done.
Qed.

Lemma rebound_same_listeners (a b : element) :
  listeners b = listeners a -> rebound a b.
Proof.
  intros Hl. unfold rebound, other_bindings, toggle_bindings.
  rewrite Hl. auto.
Qed.

Section Init.

Context `{JsonParser}.

(** The steps of a call that returns. *)
Lemma init_steps (st st' : state) (scope : scope_arg) (options : options_arg) :
  init st scope options = Some st' ->
  ∃ toggles,
    apply_options (attributes st) options = Some (attributes st')
    ∧ toggles_of (attributes st') (resolve_scope scope) (page st)
      = Some toggles
    ∧ init_groups (attributes st') (resolve_scope scope) (enumerate toggles)
        (page st) = Some (page st').
Proof.
  unfold init, init_run. intros Hinit.
  destruct (apply_options (attributes st) options) as [A|]; [|done].
  simpl in Hinit.
  destruct (toggles_of A (resolve_scope scope) (page st)) as [toggles|]
    eqn:Htoggles; [|done].
  simpl in Hinit.
  destruct (init_groups A (resolve_scope scope) (enumerate toggles) (page st))
    as [page'|] eqn:Hgroups; [|done].
  simpl in Hinit. injection Hinit as <-. simpl. exists toggles. done.
Qed.

Lemma register_all_returns (A : Attributes) (page : list element)
    (found : list nat) :
  (∀ i el, page !! i = Some el -> attrs el !! toggled A ≠ Some "__proto__") ->
  ∀ toggles, is_Some (register_all A page found toggles).
Proof.
  intros Hproto. induction found as [|i found IH]; intros toggles; simpl;
    [eauto|].
  assert (Hreg : is_Some (register A page toggles i)).
  { unfold register. destruct (page !! i) as [el|] eqn:Hi; [|eauto].
    destruct (validateToggle A el); [|eauto].
    case_bool_decide; [|eauto]. case_bool_decide as Hp; [|eauto].
    exfalso. apply (Hproto i el Hi).
    destruct (attrs el !! toggled A); simpl in Hp; by simplify_eq. }
  destruct Hreg as [t ->]. simpl. apply IH.
Qed.


End Init.




(** ** Event bindings *)

Section Bindings.

Context `{JsonParser}.

Lemma apply_plan_rebound (A : Attributes) (b : bool) (el : element) :
  rebound el (apply_plan A b el).
Proof.
  apply rebound_same_listeners.
  by destruct (apply_plan_look A b el) as (_ & _ & ->).
Qed.

Lemma init_rebound (st st' : state) (scope : scope_arg)
    (options : options_arg) :
  init st scope options = Some st' ->
  related (fun _ => rebound) (page st) (page st').
Proof.
  intros Hinit. destruct (init_steps _ _ _ _ Hinit) as (toggles & _ & _ & Hg).
  apply (init_groups_related (fun _ => rebound) (fun _ => True)
           (attributes st'))
    with (inScope := resolve_scope scope) (gs := enumerate toggles);
    try done.
  - intros _ el. by apply rebound_same_listeners.
  - intros _ a b c. apply rebound_trans.
  - intros _ h el. apply bind_input_rebound.
  - intros _ b el _. apply apply_plan_rebound.
  - apply Forall_forall. intros g _. by apply Forall_forall.
Qed.

Lemma rebound_single (el el' : element) :
  rebound el el' ->
  length (toggle_bindings el) ≤ 1 -> length (toggle_bindings el') ≤ 1.
Proof. intros [_ [-> | [h ->]]]; [done | simpl; lia]. Qed.


(** From a page without such bindings, however often [init] is called,
    no element carries more than one. *)
Lemma init_all_single_binding (calls : list (scope_arg * options_arg)) :
  ∀ st st', init_all st calls = Some st' ->
    (∀ i el, page st !! i = Some el -> length (toggle_bindings el) ≤ 1) ->
    ∀ i el', page st' !! i = Some el' -> length (toggle_bindings el') ≤ 1.
Proof.
  induction calls as [|[scope options] calls IH]; intros st st'; simpl.
  - intros [= <-]. auto.
  - destruct (init st scope options) as [st1|] eqn:Hinit; [|done]. simpl.
    intros Hrest Hone. apply (IH st1 st' Hrest).
    intros i el1 Hel1.
    destruct (init_rebound _ _ _ _ Hinit) as [Hlen Hrel].
    destruct (lookup_lt_is_Some_2 (page st) i) as [el Hel].
    { rewrite <- Hlen. by eapply lookup_lt_Some. }
    apply (rebound_single el el1); [by apply (Hrel i) | by eapply Hone].
Qed.

(** ** The shared marker names *)





End Bindings.



(** After the override, a call without options toggles the element
    marked under the new names and passes over the one marked under the
    default names. *)
Lemma overridden_names_in_force :
  classes <$> page Pages.custom_twice !! 1 = Some ["visible"]
  ∧ classes <$> page Pages.custom_twice !! 2 = Some [].
Proof. split; vm_compute; reflexivity. Qed.

(** ** The documented example, and the same with the value [0] *)

(** With value [1] the element is shown once the checkbox is checked;
    with value [0] it never is. *)
Lemma checkbox_of_value_zero :
  (st ← init (H := Json.string_arrays) (Pages.fresh (Pages.agree true))
         NoScope NoOptions;
   classes <$> page st !! 1) = Some ["visible"]
  ∧ (st ← init (H := Json.string_arrays) (Pages.fresh (Pages.agree false))
           NoScope NoOptions;
     classes <$> page st !! 1) = Some []
  ∧ (st ← init (H := Json.string_arrays) (Pages.fresh Pages.zero_page)
           NoScope NoOptions;
     classes <$> page st !! 1) = Some [].
Proof. repeat split; vm_compute; reflexivity. Qed.

(** Ticking the checkbox shows the element, clearing it hides it
    again. *)
Lemma ticking_and_clearing :
  (st0 ← init (H := Json.string_arrays) (Pages.fresh (Pages.agree false))
          NoScope NoOptions;
   st1 ← change (H := Json.string_arrays) (Pages.set_checked 0 true st0) 0;
   classes <$> page st1 !! 1) = Some ["visible"]
  ∧ (st0 ← init (H := Json.string_arrays) (Pages.fresh (Pages.agree false))
            NoScope NoOptions;
     st1 ← change (H := Json.string_arrays) (Pages.set_checked 0 true st0) 0;
     st2 ← change (H := Json.string_arrays) (Pages.set_checked 0 false st1) 0;
     classes <$> page st2 !! 1) = Some [].
Proof. split; vm_compute; reflexivity. Qed.

(** A set of inactive values: the selection [a], [b] meets [a], [c], so
    the target is inactive and its attribute [checked] is removed. *)
Lemma inactive_on_shared_value :
  getInputValues "tags" (fun _ => true) Pages.tags_page = [JStr "a"; JStr "b"]
  ∧ determineActive (H := Json.string_arrays) default_attributes
      Pages.tags_target [JStr "a"; JStr "b"] = Some (JBool false)
  ∧ (st ← init (H := Json.string_arrays) (Pages.fresh Pages.tags_page)
           NoScope NoOptions;
     el ← page st !! 1; Some (attrs el !! "checked")) = Some None.
Proof. repeat split; vm_compute; reflexivity. Qed.

(** * Further properties *)

(** ** The two mutators *)

(** X1.  [toggleClass] changes nothing but the classes.  When the state
    is truthy a name is among the classes afterwards exactly when it is
    not an inactive name and was there before or is an active name;
    when the state is falsy, exactly when it is an inactive name or was
    there before and is not an active name.  A name in both lists is
    thus absent in the active state and present in the inactive one. *)
Theorem toggleClass_table (A : Attributes) (el : element) (isActive : jsval)
    (c : string) :
  let on := Text.tokens (default "" (attrs el !! activeClass A)) in
  let off := Text.tokens (default "" (attrs el !! inactiveClass A)) in
  attrs (toggleClass A el isActive) = attrs el
  ∧ same_input el (toggleClass A el isActive)
  ∧ (c ∈ classes (toggleClass A el isActive)
     ↔ if truthy isActive
       then (c ∈ classes el ∨ c ∈ on) ∧ c ∉ off
       else c ∈ off ∨ (c ∈ classes el ∧ c ∉ on)).
Proof.
  intros on off.
  assert (Hb : toggleClass A el isActive
               = toggleClass A el (JBool (truthy isActive))).
  { unfold toggleClass. simpl. by destruct (truthy isActive). }
  rewrite Hb. split; [apply toggleClass_attrs|]. split.
  - unfold toggleClass, same_input.
    destruct (truthy (JBool (truthy isActive)));
      repeat case_bool_decide; repeat split; reflexivity.
  - rewrite (toggleClass_classes A el (truthy isActive) c).
    fold on. fold off. destruct (truthy isActive); tauto.
Qed.

(** X2.  On a tame element [toggleAttribute] changes neither the
    classes nor the listeners, and of the attributes only the ones its
    two directives name.  In the active state the inactive directive's
    attribute is absent, even when the active directive names the same
    one, and the active directive's attribute has its value if the
    directive carries one; in the inactive state the inactive
    directive's attribute has its value if the directive carries one,
    and otherwise the active directive's attribute is absent. *)
Theorem toggleAttribute_table (A : Attributes) (el : element)
    (isActive : jsval) (k : string) :
  tame A el = true ->
  let a := parseToggleAttribute el (activeAttribute A) in
  let i := parseToggleAttribute el (inactiveAttribute A) in
  classes (toggleAttribute A el isActive) = classes el
  ∧ listeners (toggleAttribute A el isActive) = listeners el
  ∧ attrs (toggleAttribute A el isActive) !! k
    = if truthy isActive
      then if bool_decide (attribute i ≠ "" ∧ attribute i = k) then None
           else if bool_decide (attribute a ≠ "" ∧ value a ≠ ""
                                ∧ attribute a = k)
                then Some (value a) else attrs el !! k
      else if bool_decide (attribute i ≠ "" ∧ value i ≠ ""
                           ∧ attribute i = k)
           then Some (value i)
           else if bool_decide (attribute a ≠ "" ∧ attribute a = k)
                then None else attrs el !! k.
Proof.
  intros _ a i.
  assert (Hb : toggleAttribute A el isActive
               = toggleAttribute A el (JBool (truthy isActive))).
  { unfold toggleAttribute. simpl. by destruct (truthy isActive). }
  rewrite Hb.
  destruct (toggleAttribute_attrs A el (truthy isActive))
    as (Hat & Hcl & Hls).
  split; [done|]. split; [done|].
  rewrite Hat. fold a. fold i. destruct (truthy isActive).
  - by rewrite lookup_remove_in, lookup_set_in.
  - by rewrite lookup_set_in, lookup_remove_in.
Qed.

Lemma toggleAttribute_table_witness :
  tame default_attributes Pages.hidden_box = true
  ∧ classes (toggleAttribute default_attributes Pages.hidden_box (JBool true))
    = ["box"; "hidden"]
  ∧ attrs (toggleAttribute default_attributes Pages.hidden_box (JBool true))
      !! "title" = None
  ∧ attrs (toggleAttribute default_attributes Pages.hidden_box (JBool true))
      !! "checked" = Some "checked".
Proof.
  assert (Ht : tame default_attributes Pages.hidden_box = true)
    by (vm_compute; reflexivity).
  split; [exact Ht|].
  destruct (toggleAttribute_table default_attributes Pages.hidden_box
              (JBool true) "title" Ht) as (Hcl & _ & Htitle).
  destruct (toggleAttribute_table default_attributes Pages.hidden_box
              (JBool true) "checked" Ht) as (_ & _ & Haria).
  split; [rewrite Hcl; reflexivity|].
  split; [rewrite Htitle | rewrite Haria]; vm_compute; reflexivity.
Defined.

(** X3.  When both directives of a tame element name the same
    attribute and carry values, the active state leaves that attribute
    absent (it is set, then removed), while the inactive state leaves it
    with the inactive value. *)
Theorem same_attribute_in_both_directives (A : Attributes) (el : element)
    (n va vi : string) :
  tame A el = true ->
  parseToggleAttribute el (activeAttribute A) = Parsed n va ->
  parseToggleAttribute el (inactiveAttribute A) = Parsed n vi ->
  n ≠ "" -> vi ≠ "" ->
  attrs (apply_plan A true el) !! n = None
  ∧ attrs (apply_plan A false el) !! n = Some vi.
Proof.
  intros _ Ha Hi Hn Hvi.
  destruct (apply_plan_look A true el) as (-> & _ & _).
  destruct (apply_plan_look A false el) as (-> & _ & _).
  rewrite Ha, Hi, lookup_remove_in, !lookup_set_in. simpl.
  rewrite !bool_decide_eq_true_2 by done. done.
Qed.

Lemma same_attribute_in_both_directives_witness :
  tame default_attributes Pages.same_name = true
  ∧ parseToggleAttribute Pages.same_name (activeAttribute default_attributes)
    = Parsed "aria-hidden" "false"
  ∧ parseToggleAttribute Pages.same_name
      (inactiveAttribute default_attributes)
    = Parsed "aria-hidden" "true"
  ∧ attrs (apply_plan default_attributes true Pages.same_name)
      !! "aria-hidden" = None
  ∧ attrs (apply_plan default_attributes false Pages.same_name)
      !! "aria-hidden" = Some "true".
Proof.
  assert (Ha : parseToggleAttribute Pages.same_name
                 (activeAttribute default_attributes)
               = Parsed "aria-hidden" "false") by (vm_compute; reflexivity).
  assert (Hi : parseToggleAttribute Pages.same_name
                 (inactiveAttribute default_attributes)
               = Parsed "aria-hidden" "true") by (vm_compute; reflexivity).
  split; [vm_compute; reflexivity|]. split; [exact Ha|]. split; [exact Hi|].
  apply (same_attribute_in_both_directives default_attributes
           Pages.same_name "aria-hidden" "false" "true" eq_refl Ha Hi);
    discriminate.
Defined.

(** X4.  Applying the plan of a state to a tame element a second time
    changes nothing: the element has the same attributes and the same
    classes as after the first time. *)
Theorem plan_idempotent (A : Attributes) (b : bool) (el : element) :
  tame A el = true ->
  same_look (apply_plan A b (apply_plan A b el)) (apply_plan A b el).
Proof.
  intros Htame.
  assert (Hapart' : ∀ n, n ∈ plan_names A el -> n ∉ plan_markers A).
  { intros n Hn Hm.
    by apply (tame_apart A el n Htame Hn), plan_markers_markers. }
  set (el1 := apply_plan A b el).
  assert (Hkeep : ∀ m, m ∈ plan_markers A -> attrs el1 !! m = attrs el !! m).
  { intros m Hm. by apply apply_plan_keeps_markers. }
  destruct (apply_plan_look A b el1) as (Hat2 & Hcl2 & _).
  destruct (apply_plan_look A b el) as (Hat1 & Hcl1 & _).
  fold el1 in Hat1, Hcl1.
  destruct (in_plan_markers A) as (Hm1 & Hm2 & Hm3 & Hm4).
  rewrite !(parse_lookup el1 el) in Hat2 by by apply Hkeep.
  rewrite !Hkeep in Hcl2 by done.
  split.
  - rewrite Hat2, Hat1. apply map_eq. intros k. destruct b.
    + rewrite !lookup_remove_in, !lookup_set_in, !lookup_remove_in,
        !lookup_set_in.
      repeat case_bool_decide; try reflexivity; exfalso; tauto.
    + rewrite !lookup_set_in, !lookup_remove_in, !lookup_set_in,
        !lookup_remove_in.
      repeat case_bool_decide; try reflexivity; exfalso; tauto.
  - intros c. rewrite Hcl2. destruct b; rewrite !Hcl1; tauto.
Qed.

Lemma plan_idempotent_witness :
  tame default_attributes Pages.hidden_box = true
  ∧ same_look
      (apply_plan default_attributes true
         (apply_plan default_attributes true Pages.hidden_box))
      (apply_plan default_attributes true Pages.hidden_box).
Proof.
  split; [vm_compute; reflexivity|].
  apply (plan_idempotent default_attributes true Pages.hidden_box).
  vm_compute. reflexivity.
Defined.

(** X5.  An element on which none of the four directive attributes is
    filled is returned as it is by [toggleClass] followed by
    [toggleAttribute], whatever the state. *)
Theorem plan_without_directives (A : Attributes) (el : element)
    (isActive : jsval) :
  Forall (fun m => ¬ filled m el) (plan_markers A) ->
  toggleAttribute A (toggleClass A el isActive) isActive = el.
Proof.
  intros Hnone.
  assert (Hempty : ∀ m, m ∈ plan_markers A -> default "" (attrs el !! m) = "").
  { intros m Hm. eapply Forall_forall in Hnone; [|exact Hm].
    destruct (attrs el !! m) as [v|] eqn:Hv; [|done]. simpl.
    destruct (decide (v = "")) as [->|Hne]; [done|].
    exfalso. apply Hnone. by exists v. }
  destruct (in_plan_markers A) as (Hm1 & Hm2 & Hm3 & Hm4).
  assert (Hclass : toggleClass A el isActive = el).
  { unfold toggleClass, JQ.attr. rewrite !Hempty by done. simpl.
    by destruct (truthy isActive). }
  rewrite Hclass.
  assert (Hparse : ∀ m, m ∈ plan_markers A ->
            parseToggleAttribute el m = Parsed "" "").
  { intros m Hm. unfold parseToggleAttribute, JQ.attr.
    rewrite (Hempty m Hm). simpl. by destruct (JQ.has_attr m el). }
  unfold toggleAttribute. rewrite !Hparse by done.
  by destruct (truthy isActive).
Qed.

Lemma plan_without_directives_witness :
  Forall (fun m => ¬ filled m Pages.no_directive)
         (plan_markers default_attributes)
  ∧ toggleAttribute default_attributes
      (toggleClass default_attributes Pages.no_directive (JBool true))
      (JBool true) = Pages.no_directive.
Proof.
  assert (Hnone : Forall (fun m => ¬ filled m Pages.no_directive)
                    (plan_markers default_attributes)).
  { unfold plan_markers. repeat constructor;
      intros (v & Hv & Hne); vm_compute in Hv; by simplify_eq. }
  split; [exact Hnone|].
  apply (plan_without_directives default_attributes Pages.no_directive
           (JBool true) Hnone).
Defined.

(** ** [update] and the change handler *)

Section Frames.

Context `{JsonParser}.

(** What [update] leaves alone: the elements it was not given, and on
    every element the listeners. *)
Lemma update_frame (A : Attributes) (toggles : list nat)
    (inputValues : list jsval) (page page' : list element) :
  update A toggles inputValues page = Some page' ->
  related (fun j a b => (j ∉ toggles -> b = a) ∧ listeners b = listeners a)
          page page'.
Proof.
  intros Hup.
  refine (update_related
            (fun j a b => (j ∉ toggles -> b = a) ∧ listeners b = listeners a)
            (fun j => j ∈ toggles) A _ _ _ toggles inputValues _
            page page' Hup).
  - intros j el. split; [intros _; reflexivity | reflexivity].
  - intros j a b c [Hab Sab] [Hbc Sbc]. split.
    + intros Hj. rewrite (Hbc Hj). by apply Hab.
    + congruence.
  - intros j b el Hj. split; [intros Hn; by destruct Hn|].
    by destruct (apply_plan_look A b el) as (_ & _ & ->).
  - by apply Forall_forall.
Qed.

(** Over elements that are tame and readable [update] returns, and
    leaves them tame and readable. *)
Lemma update_steady (A : Attributes) (S : nat -> Prop) (toggles : list nat)
    (inputValues : list jsval) :
  (∀ j, j ∈ toggles -> S j) ->
  ∀ page, steady A S page ->
    ∃ page', update A toggles inputValues page = Some page'
             ∧ steady A S page'.
Proof.
  induction toggles as [|i toggles IH]; intros Hin page Hst; simpl;
    [by exists page|].
  assert (Hrest : ∀ j, j ∈ toggles -> S j) by (intros j Hj; apply Hin; by right).
  destruct (page !! i) as [toggle|] eqn:Hlook; [|by apply IH].
  destruct (Hst i toggle) as [Ht Hr]; [apply Hin; by left | done |].
  destruct (update_toggle_returns A inputValues toggle Hr) as [b ->]. simpl.
  apply (IH Hrest). intros j el Hj Hel.
  destruct (decide (i = j)) as [<-|Hne].
  - rewrite list_lookup_insert_eq in Hel by by eapply lookup_lt_Some.
    injection Hel as <-. split; [by apply apply_plan_tame|].
    by rewrite apply_plan_readable.
  - rewrite list_lookup_insert_ne in Hel by done. by apply (Hst j).
Qed.

(** X6.  Given elements that are tame and readable, [update] returns.
    The page keeps its length, an element that is not among the given
    ones is returned as it was, and every element keeps its
    listeners. *)
Theorem update_touches_only_toggles (A : Attributes) (toggles : list nat)
    (inputValues : list jsval) (page : list element) :
  (∀ j el, j ∈ toggles -> page !! j = Some el ->
           tame A el = true ∧ readable A el = true) ->
  ∃ page', update A toggles inputValues page = Some page'
    ∧ length page' = length page
    ∧ ∀ j el', page' !! j = Some el' ->
        ∃ el, page !! j = Some el ∧ listeners el' = listeners el
              ∧ (j ∈ toggles
                 ∨ (attrs el' = attrs el ∧ classes el' = classes el)).
Proof.
  intros Hall.
  destruct (update_steady A (fun j => j ∈ toggles) toggles inputValues
              (fun j Hj => Hj) page Hall) as (page' & Hup & _).
  exists page'. split; [done|].
  destruct (update_frame _ _ _ _ _ Hup) as [Hlen Hrel]. split; [done|].
  intros j el' Hel'.
  destruct (lookup_lt_is_Some_2 page j) as [el Hel].
  { rewrite <- Hlen. by eapply lookup_lt_Some. }
  exists el. destruct (Hrel j el el' Hel Hel') as [Hsame Hls].
  split; [done|]. split; [done|].
  destruct (decide (j ∈ toggles)); [by left | right].
  by rewrite (Hsame ltac:(done)).
Qed.

Lemma run_handlers_steady (A : Attributes) (S : nat -> Prop)
    (ls : list listener) :
  (∀ l h j, l ∈ ls -> l_handler l = Some h -> j ∈ h_toggles h -> S j) ->
  ∀ page, steady A S page ->
    ∃ page', run_handlers A ls page = Some page'
      ∧ related (fun _ a b => listeners b = listeners a) page page'.
Proof.
  induction ls as [|l ls IH]; intros Hin page Hst; simpl.
  - exists page. split; [done|]. split; [done|].
    intros j a b Ha Hb. by simplify_eq.
  - assert (Hrest : ∀ l' h j, l' ∈ ls -> l_handler l' = Some h ->
                              j ∈ h_toggles h -> S j).
    { intros l' h j Hl'. apply Hin. by right. }
    case_bool_decide; [|by apply IH].
    destruct (l_handler l) as [h|] eqn:Hh; [|by apply IH].
    destruct (update_steady A S (h_toggles h)
                (getInputValues (h_inputName h) (h_scope h) page)
                (fun j Hj => Hin l h j ltac:(left) Hh Hj) page Hst)
      as (p1 & Hp1 & Hst1).
    rewrite Hp1. simpl.
    destruct (IH Hrest p1 Hst1) as (p2 & Hp2 & Hlen2 & Hrel2).
    exists p2. split; [done|].
    destruct (update_frame _ _ _ _ _ Hp1) as [Hlen1 Hrel1].
    split; [congruence|]. intros j a c Ha Hc.
    destruct (lookup_lt_is_Some_2 p1 j) as [b Hb].
    { rewrite Hlen1. by eapply lookup_lt_Some. }
    rewrite (Hrel2 j b c Hb Hc).
    by destruct (Hrel1 j a b Ha Hb) as [_ ->].
Qed.

(** X7.  When the handlers bound to an element were bound for input
    names that the selector takes literally and for elements that are
    tame and readable, a [change] event on the element runs them
    without a throw, and they bind and unbind nothing: the marker
    names, the length of the page and the listeners of every element
    are as before. *)
Theorem change_keeps_bindings (st : state) (i : nat) :
  (∀ input l h, page st !! i = Some input -> l ∈ listeners input ->
                l_handler l = Some h ->
                Names.selector_safe (h_inputName h) = true
                ∧ ∀ j el, j ∈ h_toggles h -> page st !! j = Some el ->
                          tame (attributes st) el = true
                          ∧ readable (attributes st) el = true) ->
  ∃ st', change st i = Some st'
    ∧ attributes st' = attributes st
    ∧ length (page st') = length (page st)
    ∧ ∀ j el el', page st !! j = Some el -> page st' !! j = Some el' ->
        listeners el' = listeners el.
Proof.
  intros Hall. unfold change. destruct (page st !! i) as [input|] eqn:Hi.
  - destruct (run_handlers_steady (attributes st)
                (fun j => ∃ l h, l ∈ listeners input ∧ l_handler l = Some h
                                 ∧ j ∈ h_toggles h)
                (listeners input)) with (page := page st)
      as (page' & -> & Hlen & Hrel).
    + intros l h j Hl Hh Hj. by exists l, h.
    + intros j el (l & h & Hl & Hh & Hj) Hel.
      by apply (proj2 (Hall input l h eq_refl Hl Hh) j el).
    + simpl. eexists. split; [done|]. simpl. done.
  - exists st. split; [done|]. split; [done|]. split; [done|].
    intros j a b Ha Hb. by simplify_eq.
Qed.

(** ** The reach of [init] *)

Lemma bind_inputs_frame (h : handler) (inputs : list nat) (j : nat) :
  j ∉ inputs ->
  ∀ page, bind_inputs h inputs page !! j = page !! j.
Proof.
  induction inputs as [|i inputs IH]; intros Hj page; simpl; [done|].
  apply not_elem_of_cons in Hj as [Hne Hj]. rewrite (IH Hj).
  destruct (page !! i); [|done]. by apply list_lookup_insert_ne.
Qed.

Lemma init_groups_frame (A : Attributes) (inScope : nat -> bool) (j : nat)
    (gs : groups) :
  inScope j = false ->
  Forall (fun g => j ∉ g.2) gs ->
  ∀ page page', init_groups A inScope gs page = Some page' ->
                page' !! j = page !! j.
Proof.
  intros Hout. induction gs as [|[name members] gs IH];
    intros Hgs page page'; simpl.
  - by intros [= <-].
  - apply Forall_cons in Hgs as [Hj Hgs]. simpl in Hj.
    case_bool_decide; simpl; [|by apply IH].
    set (inputs := find (named name) inScope page).
    destruct (update A members _ _) as [p1|] eqn:Hp1; [|done]. simpl.
    intros Hrest. rewrite (IH Hgs _ _ Hrest).
    destruct (update_frame _ _ _ _ _ Hp1) as [Hlen Hrel].
    assert (Hbind : bind_inputs (Handler members name inScope) inputs page !! j
                    = page !! j).
    { apply bind_inputs_frame. intros Hin.
      apply elem_of_find in Hin as [Hs _]. congruence. }
    rewrite <- Hbind.
    destruct (bind_inputs _ inputs page !! j) as [a|] eqn:Ha.
    + destruct (lookup_lt_is_Some_2 p1 j) as [b Hb].
      { rewrite Hlen. by eapply lookup_lt_Some. }
      rewrite Hb. f_equal. by apply (Hrel j a b Ha Hb).
    + apply lookup_ge_None. rewrite Hlen. by apply lookup_ge_None.
Qed.

(** X8.  [init] works within its scope: an element that does not lie
    below the resolved scope is returned as it was, classes, attributes
    and listeners alike. *)
Theorem init_stays_in_scope (st st' : state) (scope : scope_arg)
    (options : options_arg) (j : nat) :
  init st scope options = Some st' ->
  resolve_scope scope j = false ->
  page st' !! j = page st !! j.
Proof.
  intros Hinit Hout.
  destruct (init_steps _ _ _ _ Hinit) as (toggles & _ & Ht & Hg).
  apply (init_groups_frame _ _ j _ Hout) in Hg; [done|].
  apply Forall_forall. intros [name members] Hin Hj.
  apply (proj1 (elem_of_enumerate _ _)) in Hin.
  assert (Hfiled : filed toggles j) by (exists name, members; done).
  apply (toggles_of_filed _ _ _ _ Ht) in Hfiled as [Hs _]. congruence.
Qed.

End Frames.

Lemma update_touches_only_toggles_witness :
  ∃ page',
    update (H := Json.string_arrays) default_attributes [1] [JStr "1"]
      (Pages.agree true) = Some page'
    ∧ length page' = 2
    ∧ attrs <$> page' !! 0 = attrs <$> Pages.agree true !! 0.
Proof.
  destruct (update_touches_only_toggles (H := Json.string_arrays)
              default_attributes [1] [JStr "1"] (Pages.agree true))
    as (page' & Hup & Hlen & Hrest).
  - intros j el Hj Hel. apply list_elem_of_singleton in Hj. subst j.
    vm_compute in Hel. injection Hel as <-. split; vm_compute; reflexivity.
  - exists page'. split; [exact Hup|]. split; [exact Hlen|].
    destruct (page' !! 0) as [el'|] eqn:Hel'.
    + destruct (Hrest 0 el' Hel') as (el & Hel & _ & [Hin|[Hattrs _]]).
      * apply list_elem_of_singleton in Hin. discriminate Hin.
      * rewrite Hel. simpl. by rewrite Hattrs.
    + apply lookup_ge_None in Hel'. rewrite Hlen in Hel'. simpl in Hel'. lia.
Defined.

Lemma change_keeps_bindings_witness :
  ∃ st',
    change (H := Json.string_arrays) Pages.agree_once 0 = Some st'
    ∧ attributes st' = attributes Pages.agree_once
    ∧ length (page st') = length (page Pages.agree_once).
Proof.
  destruct (change_keeps_bindings (H := Json.string_arrays) Pages.agree_once 0)
    as (st' & Hchange & HA & Hlen & _).
  - intros input l h Hin Hl Hh.
    vm_compute in Hin. injection Hin as <-. simpl in Hl.
    apply list_elem_of_singleton in Hl. subst l. simpl in Hh.
    injection Hh as <-. split; [reflexivity|].
    intros j el Hj Hel. simpl in Hj. apply list_elem_of_singleton in Hj.
    subst j. vm_compute in Hel. injection Hel as <-.
    split; vm_compute; reflexivity.
  - exists st'. split; [exact Hchange|]. split; [exact HA | exact Hlen].
Defined.

Lemma init_stays_in_scope_witness :
  init (H := Json.string_arrays) (Pages.fresh Pages.two_forms)
    Pages.first_form NoOptions = Some Pages.two_forms_after
  ∧ resolve_scope Pages.first_form 3 = false
  ∧ page Pages.two_forms_after !! 3 = Pages.two_forms !! 3.
Proof.
  assert (Hinit : init (H := Json.string_arrays) (Pages.fresh Pages.two_forms)
                    Pages.first_form NoOptions = Some Pages.two_forms_after)
    by (vm_compute; reflexivity).
  split; [exact Hinit|]. split; [reflexivity|].
  apply (init_stays_in_scope (H := Json.string_arrays) _ _ _ _ 3 Hinit).
  reflexivity.
Defined.

(** ** Calls of [init] that do nothing, and calls that throw *)

Lemma find_nothing (matches : element -> bool) (inScope : nat -> bool)
    (page : list element) :
  (∀ i el, page !! i = Some el -> inScope i = true -> matches el = false) ->
  find matches inScope page = [].
Proof.
  intros Hnone. destruct (find matches inScope page) as [|i l] eqn:Hfind;
    [done|].
  assert (Hi : i ∈ find matches inScope page) by (rewrite Hfind; left).
  apply elem_of_find in Hi as (Hs & el & Hel & Hm).
  rewrite (Hnone i el Hel Hs) in Hm. done.
Qed.

Section Calls.

Context `{JsonParser}.

Lemma init_groups_without_inputs (A : Attributes) (inScope : nat -> bool)
    (page : list element) (gs : groups) :
  (∀ name, find (named name) inScope page = []) ->
  init_groups A inScope gs page = Some page.
Proof.
  intros Hnone. induction gs as [|[name members] gs IH]; simpl; [done|].
  rewrite Hnone. simpl. exact IH.
Qed.

(** X9.  Over a scope in which no element has a [name] attribute,
    and whose marked elements give input names that the selector takes
    literally, [init] binds nothing and updates nothing: the page is
    returned as it was. *)
Theorem init_without_inputs (st st' : state) (scope : scope_arg)
    (options : options_arg) :
  init st scope options = Some st' ->
  (∀ i el, page st !! i = Some el -> resolve_scope scope i = true ->
           attrs el !! "name" = None) ->
  (∀ i el inputName, page st !! i = Some el ->
                     resolve_scope scope i = true ->
                     attrs el !! toggled (attributes st') = Some inputName ->
                     Names.selector_safe inputName = true) ->
  page st' = page st.
Proof.
  intros Hinit Hnone _.
  destruct (init_steps _ _ _ _ Hinit) as (toggles & _ & _ & Hg).
  rewrite init_groups_without_inputs in Hg; [by simplify_eq|].
  intros name. apply find_nothing. intros i el Hel Hs.
  unfold named. rewrite (Hnone i el Hel Hs). by apply bool_decide_eq_false_2.
Qed.

Lemma register_all_throws (A : Attributes) (page : list element) (i : nat)
    (found : list nat) :
  i ∈ found ->
  (∀ toggles, register A page toggles i = None) ->
  ∀ toggles, register_all A page found toggles = None.
Proof.
  intros Hin Hthrow. induction found as [|k found IH]; intros toggles; simpl.
  - by apply elem_of_nil in Hin.
  - apply elem_of_cons in Hin as [<-|Hin].
    + by rewrite Hthrow.
    + destruct (register A page toggles k); [|done]. simpl. by apply IH.
Qed.

(** X10.  [init] throws when its options are [null], and when a valid
    marked element of the scope names the input [__proto__]. *)
Theorem init_throws (st : state) (scope : scope_arg) (options : options_arg)
    (A : Attributes) (i : nat) (el : element) :
  apply_options (attributes st) options = Some A ->
  resolve_scope scope i = true ->
  page st !! i = Some el ->
  validateToggle A el = true ->
  attrs el !! toggled A = Some "__proto__" ->
  init st scope options = None ∧ init st scope NullOptions = None.
Proof.
  intros HA Hs Hel Hv Hname. split; [|reflexivity].
  unfold init, init_run. rewrite HA. simpl. unfold toggles_of.
  rewrite (register_all_throws A (page st) i); [done| |].
  - apply elem_of_find. split; [done|]. exists el. split; [done|].
    unfold JQ.has_attr. rewrite Hname. by apply bool_decide_eq_true_2.
  - intros toggles. unfold register. rewrite Hel, Hv, Hname. reflexivity.
Qed.

End Calls.

Lemma init_without_inputs_witness :
  init (H := Json.string_arrays) (Pages.fresh Pages.no_inputs) NoScope
    NoOptions = Some (Pages.fresh Pages.no_inputs)
  ∧ page (Pages.fresh Pages.no_inputs) = Pages.no_inputs.
Proof.
  assert (Hinit : init (H := Json.string_arrays) (Pages.fresh Pages.no_inputs)
                    NoScope NoOptions = Some (Pages.fresh Pages.no_inputs))
    by (vm_compute; reflexivity).
  split; [exact Hinit|].
  apply (init_without_inputs (H := Json.string_arrays) _ _ _ _ Hinit).
  - intros i el Hel _. destruct i as [|i].
    + vm_compute in Hel. injection Hel as <-. reflexivity.
    + vm_compute in Hel. discriminate.
  - intros i el inputName Hel _ Hname. destruct i as [|i].
    + vm_compute in Hel. injection Hel as <-. vm_compute in Hname.
      injection Hname as <-. reflexivity.
    + vm_compute in Hel. discriminate.
Defined.

Lemma init_throws_witness :
  validateToggle default_attributes Pages.proto_target = true
  ∧ init (H := Json.string_arrays) (Pages.fresh Pages.proto_page) NoScope
      NoOptions = None
  ∧ init (H := Json.string_arrays) (Pages.fresh Pages.proto_page) NoScope
      NullOptions = None.
Proof.
  split; [vm_compute; reflexivity|].
  apply (init_throws (H := Json.string_arrays) (Pages.fresh Pages.proto_page)
           NoScope NoOptions default_attributes 1 Pages.proto_target);
    vm_compute; reflexivity.
Defined.

(** ** The groups *)

Lemma push_toggle_keys (name : string) (i : nat) (toggles : groups) (k : string) :
  k ∈ (push_toggle name i toggles).*1 ↔ k = name ∨ k ∈ toggles.*1.
Proof.
  induction toggles as [|[k0 ms] rest IH]; simpl.
  - rewrite list_elem_of_singleton, elem_of_nil. tauto.
  - case_bool_decide as Hk; simpl; rewrite !elem_of_cons.
    + subst. tauto.
    + rewrite IH. tauto.
Qed.

Lemma push_toggle_NoDup (name : string) (i : nat) (toggles : groups) :
  NoDup toggles.*1 -> NoDup (push_toggle name i toggles).*1.
Proof.
  induction toggles as [|[k0 ms] rest IH]; simpl; intros Hnd.
  - apply NoDup_singleton.
  - apply NoDup_cons in Hnd as [Hk0 Hnd]. case_bool_decide as Hk; simpl.
    + by apply NoDup_cons.
    + apply NoDup_cons. split; [|by apply IH].
      rewrite push_toggle_keys. intros [->|?]; done.
Qed.

Lemma push_toggle_groups (name : string) (i : nat) (toggles : groups)
    (k : string) (ms' : list nat) :
  NoDup toggles.*1 ->
  (k, ms') ∈ push_toggle name i toggles ->
  (k ≠ name ∧ (k, ms') ∈ toggles)
  ∨ (k = name
     ∧ ((ms' = [i] ∧ name ∉ toggles.*1)
        ∨ ∃ ms, (name, ms) ∈ toggles ∧ ms' = ms ++ [i])).
Proof.
  induction toggles as [|[k0 ms] rest IH]; simpl; intros Hnd Hin.
  - apply list_elem_of_singleton in Hin. injection Hin as -> ->.
    right. split; [done|]. left. split; [done | apply not_elem_of_nil].
  - apply NoDup_cons in Hnd as [Hk0 Hnd]. case_bool_decide as Hk.
    + subst k0. apply elem_of_cons in Hin as [Heq|Hin].
      * injection Heq as -> ->. right. split; [done|]. right.
        exists ms. split; [left | done].
      * left. split; [|by right]. intros ->. apply Hk0.
        apply list_elem_of_fmap. by exists (name, ms').
    + apply elem_of_cons in Hin as [Heq|Hin].
      * injection Heq as -> ->. left. split; [done | left].
      * destruct (IH Hnd Hin) as [[Hne Hin']|[-> [[-> Hnew]|(m & Hm & ->)]]].
        -- left. split; [done | by right].
        -- right. split; [done|]. left. split; [done|].
           rewrite not_elem_of_cons. done.
        -- right. split; [done|]. right. exists m. split; [by right | done].
Qed.

(** What the grouping loop keeps true of the groups built from the
    marked elements seen so far. *)
Lemma register_step (A : Attributes) (page : list element) (seen : list nat)
    (toggles toggles' : groups) (i : nat) :
  register A page toggles i = Some toggles' ->
  NoDup toggles.*1
  ∧ (∀ n, n ∈ toggles.*1 -> n ≠ "")
  ∧ (∀ n ms, (n, ms) ∈ toggles ->
             ms ≠ [] ∧ ms = List.filter (filed_as A page n) seen)
  ∧ (∀ n, n ≠ "" -> n ∉ toggles.*1 ->
          List.filter (filed_as A page n) seen = []) ->
  NoDup toggles'.*1
  ∧ (∀ n, n ∈ toggles'.*1 -> n ≠ "")
  ∧ (∀ n ms, (n, ms) ∈ toggles' ->
             ms ≠ [] ∧ ms = List.filter (filed_as A page n) (seen ++ [i]))
  ∧ (∀ n, n ≠ "" -> n ∉ toggles'.*1 ->
          List.filter (filed_as A page n) (seen ++ [i]) = []).
Proof.
  intros Hreg (Hnd & Hne & Hgroups & Hrest).
  assert (Hskip : (∀ n, n ≠ "" -> filed_as A page n i = false) ->
                  toggles' = toggles ->
                  NoDup toggles'.*1
                  ∧ (∀ n, n ∈ toggles'.*1 -> n ≠ "")
                  ∧ (∀ n ms, (n, ms) ∈ toggles' ->
                       ms ≠ [] ∧ ms = List.filter (filed_as A page n)
                                        (seen ++ [i]))
                  ∧ (∀ n, n ≠ "" -> n ∉ toggles'.*1 ->
                       List.filter (filed_as A page n) (seen ++ [i]) = [])).
  { intros Hno ->. split; [done|]. split; [done|]. split.
    - intros n ms Hin. destruct (Hgroups n ms Hin) as [Hms Heq].
      split; [done|]. rewrite List.filter_app. simpl.
      rewrite Hno, app_nil_r; [done|]. apply Hne.
      apply list_elem_of_fmap. by exists (n, ms).
    - intros n Hn Hout. rewrite List.filter_app. simpl.
      by rewrite (Hno n Hn), (Hrest n Hn Hout). }
  unfold register in Hreg.
  destruct (page !! i) as [el|] eqn:Hel.
  2:{ apply Hskip; [|by simplify_eq]. intros n _. unfold filed_as.
      by rewrite Hel. }
  destruct (validateToggle A el) eqn:Hv.
  2:{ apply Hskip; [|by simplify_eq]. intros n _. unfold filed_as.
      by rewrite Hel, Hv. }
  case_bool_decide as Hlen.
  2:{ apply Hskip; [|by simplify_eq]. intros n Hn. unfold filed_as.
      rewrite Hel, Hv. simpl. apply bool_decide_eq_false_2. intros Heq.
      rewrite Heq in Hlen. simpl in Hlen. apply Hlen. by apply length_pos. }
  case_bool_decide as Hproto; [done|]. injection Hreg as <-.
  destruct (attrs el !! toggled A) as [name|] eqn:Hname;
    [|simpl in Hlen; lia].
  simpl in Hlen, Hproto |- *. apply length_pos in Hlen.
  assert (Hi : ∀ n, filed_as A page n i = bool_decide (name = n)).
  { intros n. unfold filed_as. rewrite Hel, Hv, Hname. simpl.
    apply bool_decide_ext. split; congruence. }
  split; [by apply push_toggle_NoDup|]. split.
  { intros n Hn. apply push_toggle_keys in Hn as [->|Hn]; auto. }
  split.
  - intros n ms Hin. rewrite List.filter_app. simpl. rewrite Hi.
    destruct (push_toggle_groups _ _ _ _ _ Hnd Hin)
      as [[Hn Hin']|[-> [[-> Hnew]|(m & Hm & ->)]]].
    + rewrite bool_decide_eq_false_2 by done. rewrite app_nil_r.
      by apply Hgroups.
    + rewrite bool_decide_eq_true_2 by done.
      rewrite (Hrest name Hlen Hnew). done.
    + rewrite bool_decide_eq_true_2 by done.
      destruct (Hgroups name m Hm) as [Hm' <-]. split; [|done].
      by destruct m.
  - intros n Hn Hout. rewrite push_toggle_keys in Hout.
    rewrite List.filter_app. simpl. rewrite Hi.
    rewrite bool_decide_eq_false_2 by (intros ->; tauto).
    rewrite Hrest; [done | done | tauto].
Qed.

Lemma register_all_groups (A : Attributes) (page : list element)
    (found : list nat) :
  ∀ seen toggles toggles',
    register_all A page found toggles = Some toggles' ->
    NoDup toggles.*1
    ∧ (∀ n, n ∈ toggles.*1 -> n ≠ "")
    ∧ (∀ n ms, (n, ms) ∈ toggles ->
               ms ≠ [] ∧ ms = List.filter (filed_as A page n) seen)
    ∧ (∀ n, n ≠ "" -> n ∉ toggles.*1 ->
            List.filter (filed_as A page n) seen = []) ->
    NoDup toggles'.*1
    ∧ (∀ n, n ∈ toggles'.*1 -> n ≠ "")
    ∧ (∀ n ms, (n, ms) ∈ toggles' ->
               ms ≠ [] ∧ ms = List.filter (filed_as A page n) (seen ++ found))
    ∧ (∀ n, n ≠ "" -> n ∉ toggles'.*1 ->
            List.filter (filed_as A page n) (seen ++ found) = []).
Proof.
  induction found as [|i found IH]; intros seen toggles toggles'; simpl.
  - intros [= <-]. by rewrite app_nil_r.
  - destruct (register A page toggles i) as [t1|] eqn:Hreg; [|done]. simpl.
    intros Hrest Hinv.
    replace (seen ++ i :: found) with ((seen ++ [i]) ++ found)
      by by rewrite <- app_assoc.
    apply (IH _ _ _ Hrest). by eapply register_step.
Qed.

(** X11.  The groups [init] builds have distinct, non-empty input
    names; each group is not empty and lists, in document order and
    once each, exactly the marked elements of the scope that validate
    and name that input; and every non-empty input name that a valid
    marked element of the scope carries has its group. *)
Theorem toggles_of_groups (A : Attributes) (inScope : nat -> bool)
    (page : list element) (toggles : groups) :
  toggles_of A inScope page = Some toggles ->
  let marked := find (JQ.has_attr (toggled A)) inScope page in
  NoDup toggles.*1
  ∧ (∀ name members, (name, members) ∈ toggles ->
       name ≠ "" ∧ members ≠ []
       ∧ members = List.filter (filed_as A page name) marked)
  ∧ (∀ name, name ≠ "" -> name ∉ toggles.*1 ->
       List.filter (filed_as A page name) marked = []).
Proof.
  intros Hreg marked. unfold toggles_of in Hreg. fold marked in Hreg.
  destruct (register_all_groups A page marked [] [] toggles Hreg)
    as (Hnd & Hne & Hgroups & Hrest).
  { split; [apply NoDup_nil_2|]. split.
    - intros n Hn. by apply elem_of_nil in Hn.
    - split; [intros n ms Hin; by apply elem_of_nil in Hin | done]. }
  split; [done|]. split; [|done].
  intros name members Hin. destruct (Hgroups name members Hin) as [Hm Heq].
  split; [|done]. apply Hne. apply list_elem_of_fmap. by exists (name, members).
Qed.

Lemma toggles_of_groups_witness :
  toggles_of default_attributes (resolve_scope NoScope) Pages.mixed
  = Some [("agree", [1])]
  ∧ [1] = List.filter (filed_as default_attributes Pages.mixed "agree")
            (find (JQ.has_attr (toggled default_attributes))
               (resolve_scope NoScope) Pages.mixed).
Proof.
  assert (Hreg : toggles_of default_attributes (resolve_scope NoScope)
                   Pages.mixed = Some [("agree", [1])])
    by (vm_compute; reflexivity).
  split; [exact Hreg|].
  destruct (toggles_of_groups _ _ _ _ Hreg) as (_ & Hgroups & _).
  apply (Hgroups "agree" [1]). left.
Defined.

(** ** Comparison and activation *)

(** X12.  [hasInputValues] throws exactly when the test value is
    [null], [undefined], or an object whose own [toString] cannot be
    called; on every other value it returns a boolean. *)
Theorem hasInputValues_throws (inputValues : list jsval) (testValues : jsval) :
  hasInputValues inputValues testValues = None
  ↔ testValues = JUndefined ∨ testValues = JNull ∨ testValues = JObj true.
Proof.
  unfold hasInputValues.
  destruct testValues as [| |[|]|t|s|items|[|]]; simpl;
    try (split; [intros _; by eauto | done]);
    match goal with
    | |- context [bool_decide ?P] => destruct (bool_decide P)
    end; split; first [done | intros [?|[?|?]]; done].
Qed.

Lemma includes_strings (V : list string) (x : jsval) :
  includes (JStr <$> V) x = true -> ∃ s, x = JStr s.
Proof.
  unfold includes. induction V as [|v V IH]; simpl; [done|].
  rewrite orb_true_iff. intros [Heq|Hin]; [|by apply IH].
  destruct x; simpl in Heq; try done. eauto.
Qed.

(** X13.  An array of test values none of which is a string matches no
    input value: the items are compared with [===], and the input
    values are strings. *)
Theorem hasInputValues_needs_strings (V : list string) (items : list jsval) :
  Forall (fun x => ∀ s, x ≠ JStr s) items ->
  hasInputValues (JStr <$> V) (JArr items) = Some false.
Proof.
  intros Hitems. unfold hasInputValues. simpl.
  rewrite bool_decide_eq_false_2; [done|].
  unfold jq_filter. rewrite filter_some. intros (x & Hx & Hin).
  apply includes_strings in Hin as [s ->].
  eapply Forall_forall in Hitems; [|exact Hx]. by apply (Hitems s).
Qed.

Lemma hasInputValues_needs_strings_witness :
  Forall (fun x => ∀ s, x ≠ JStr s) [JNum "1"; JNum "2"]
  ∧ hasInputValues (JStr <$> ["1"; "2"]) (JArr [JNum "1"; JNum "2"])
    = Some false.
Proof.
  assert (Hitems : Forall (fun x => ∀ s, x ≠ JStr s) [JNum "1"; JNum "2"])
    by (repeat constructor; discriminate).
  split; [exact Hitems|].
  apply (hasInputValues_needs_strings ["1"; "2"] [JNum "1"; JNum "2"] Hitems).
Defined.

Lemma rbrace_not_scalar (t : string) :
  Data.rbrace t = true ->
  t ≠ "true" ∧ t ≠ "false" ∧ t ≠ "null" ∧ Data.canonical_number t = false.
Proof.
  intros Hbr.
  assert (Hfirst : ∃ rest, t = String "{" rest ∨ t = String "[" rest).
  { destruct t as [|c rest]; [done|]. exists rest.
    destruct c as [[] [] [] [] [] [] [] []]; try discriminate Hbr; auto. }
  destruct Hfirst as [rest [-> | ->]];
    (split; [discriminate|]); (split; [discriminate|]);
    (split; [discriminate|]);
    unfold Data.canonical_number, Data.plain_natural; simpl;
    rewrite ?bool_decide_eq_false_2 by discriminate; reflexivity.
Qed.

Section Reading.

Context `{JsonParser}.

(** X14.  [determineActive] throws exactly when the value it goes by
    (the active value when that is truthy, the inactive value
    otherwise) is an object whose own [toString] cannot be called.
    When it returns, its result is [undefined] exactly when neither the
    active nor the inactive value reads as truthy, and a boolean
    otherwise. *)
Theorem determineActive_outcome (A : Attributes) (toggle : element)
    (inputValues : list jsval) :
  (determineActive A toggle inputValues = None
   ↔ deciding A toggle = JObj true)
  ∧ ∀ r, determineActive A toggle inputValues = Some r ->
      (r = JUndefined ∨ ∃ b, r = JBool b)
      ∧ (r = JUndefined
         ↔ truthy (getAttributeValue toggle (activeValue A)) = false
           ∧ truthy (getAttributeValue toggle (inactiveValue A)) = false).
Proof.
  split.
  - unfold determineActive, deciding.
    destruct (truthy (getAttributeValue toggle (activeValue A))) eqn:Ha.
    + rewrite <- (hasInputValues_none inputValues _ Ha).
      destruct (hasInputValues inputValues _); simpl; split; done.
    + destruct (truthy (getAttributeValue toggle (inactiveValue A))) eqn:Hi.
      * rewrite <- (hasInputValues_none inputValues _ Hi).
        destruct (hasInputValues inputValues _); simpl; split; done.
      * split; [done|]. intros Hobj. rewrite Hobj in Hi. done.
  - intros r Hr. split; [by eapply determineActive_kind|].
    rewrite <- (determineActive_undefined A toggle inputValues), Hr.
    split; congruence.
Qed.

Lemma hasInputValues_text (V : list string) (text : string) :
  hasInputValues (JStr <$> V) (JStr text) = Some (intersects V [text]).
Proof. exact (hasInputValues_scalar V (SStr text)). Qed.

Lemma getAttributeValue_plain (toggle : element) (name text : string) :
  Text.starts_with "data-" name = false ->
  attrs toggle !! name = Some text ->
  getAttributeValue toggle name = JStr text.
Proof.
  intros Hname Htext. unfold getAttributeValue, JQ.has_attr, JQ.attr.
  rewrite Htext, Hname. by rewrite bool_decide_eq_true_2.
Qed.

(** X15.  With value markers whose names do not start with [data-] the
    attribute is compared as the text it is: for every non-empty active
    value the target is active exactly when that text is among the
    input values; without an active value attribute, for every
    non-empty inactive value it is active exactly when that text is not
    among them. *)
Theorem determineActive_plain_markers (A : Attributes) (toggle : element)
    (V : list string) (text : string) :
  Text.starts_with "data-" (activeValue A) = false ->
  Text.starts_with "data-" (inactiveValue A) = false ->
  text ≠ "" ->
  (attrs toggle !! activeValue A = Some text ->
   determineActive A toggle (JStr <$> V)
   = Some (JBool (intersects V [text])))
  ∧ (attrs toggle !! activeValue A = None ->
     attrs toggle !! inactiveValue A = Some text ->
     determineActive A toggle (JStr <$> V)
     = Some (JBool (negb (intersects V [text])))).
Proof.
  intros Hactive Hinactive Htext.
  assert (Htruthy : truthy (JStr text) = true).
  { simpl. by rewrite bool_decide_eq_false_2. }
  split.
  - intros Ha. rewrite determineActive_active;
      rewrite (getAttributeValue_plain _ _ _ Hactive Ha); [|done].
    by rewrite hasInputValues_text.
  - intros Hnone Hi. rewrite determineActive_inactive.
    + rewrite (getAttributeValue_plain _ _ _ Hinactive Hi).
      by rewrite hasInputValues_text.
    + unfold getAttributeValue, JQ.has_attr. rewrite Hnone.
      by rewrite bool_decide_eq_false_2 by by intros [? ?].
    + by rewrite (getAttributeValue_plain _ _ _ Hinactive Hi).
Qed.

Lemma getAttributeValue_data (toggle : element) (name text : string) :
  Text.starts_with "data-" name = true ->
  ("data-" ++ Data.hyphenate (Text.drop 5 name))%string = name ->
  attrs toggle !! name = Some text ->
  getAttributeValue toggle name = getData text.
Proof.
  intros Hname Hlower Htext. unfold getAttributeValue, JQ.has_attr, data.
  rewrite Hname, Hlower, Htext. by rewrite bool_decide_eq_true_2.
Qed.

(** X16.  With a lower-case [data-] name for the active value marker,
    a text that is none of the empty text, [false], [null], [0] and
    [NaN] and is not wrapped in brackets or braces is compared as the
    text it is: the target is active exactly when the text is among the
    input values. *)
Theorem determineActive_data_text (A : Attributes) (toggle : element)
    (V : list string) (text : string) :
  Text.starts_with "data-" (activeValue A) = true ->
  ("data-" ++ Data.hyphenate (Text.drop 5 (activeValue A)))%string
  = activeValue A ->
  attrs toggle !! activeValue A = Some text ->
  text ∉ [""; "false"; "null"; "0"; "NaN"] ->
  Data.rbrace text = false ->
  determineActive A toggle (JStr <$> V) = Some (JBool (intersects V [text])).
Proof.
  intros Hname Hlower Htext Hnot Hbr.
  rewrite !not_elem_of_cons in Hnot.
  destruct Hnot as (Hempty & Hfalse & Hnull & Hzero & Hnan & _).
  assert (Hread : ∃ c, getData text = criterion_value (One c)
                       ∧ string_of_scalar c = text
                       ∧ truthy (getData text) = true).
  { unfold getData. rewrite Hbr.
    destruct (decide (text = "true")) as [->|Htrue].
    { exists (SBool true). done. }
    rewrite !bool_decide_eq_false_2 by done.
    destruct (Data.canonical_number text).
    - exists (SNum text). repeat split. simpl.
      by rewrite !bool_decide_eq_false_2.
    - exists (SStr text). repeat split. simpl.
      by rewrite bool_decide_eq_false_2. }
  destruct Hread as (c & Hc & Hs & Htruthy).
  rewrite determineActive_active;
    rewrite (getAttributeValue_data _ _ _ Hname Hlower Htext); [|done].
  by rewrite Hc, (hasInputValues_scalar V c), Hs.
Qed.

(** X17.  With such a marker, a text in brackets that [JSON.parse]
    reads as an array of strings is a set of values: the target is
    active exactly when one of them is among the input values. *)
Theorem determineActive_data_set (A : Attributes) (toggle : element)
    (V C : list string) (text : string) :
  Text.starts_with "data-" (activeValue A) = true ->
  ("data-" ++ Data.hyphenate (Text.drop 5 (activeValue A)))%string
  = activeValue A ->
  attrs toggle !! activeValue A = Some text ->
  Data.rbrace text = true ->
  JSON_parse text = Some (JArr (JStr <$> C)) ->
  determineActive A toggle (JStr <$> V) = Some (JBool (intersects V C)).
Proof.
  intros Hname Hlower Htext Hbr Hparse.
  destruct (rbrace_not_scalar text Hbr) as (Htrue & Hfalse & Hnull & Hnum).
  assert (Hread : getData text = JArr (JStr <$> C)).
  { unfold getData. rewrite !bool_decide_eq_false_2 by done.
    by rewrite Hnum, Hbr, Hparse. }
  rewrite determineActive_active;
    rewrite (getAttributeValue_data _ _ _ Hname Hlower Htext), Hread; [|done].
  by rewrite hasInputValues_array.
Qed.

End Reading.

Lemma determineActive_plain_markers_witness :
  attrs Pages.when_zero !! activeValue Pages.plain_names = Some "0"
  ∧ determineActive (H := Json.string_arrays) Pages.plain_names Pages.when_zero
      (JStr <$> ["0"]) = Some (JBool (intersects ["0"] ["0"])).
Proof.
  assert (Ha : attrs Pages.when_zero !! activeValue Pages.plain_names
               = Some "0") by (vm_compute; reflexivity).
  split; [exact Ha|].
  destruct (determineActive_plain_markers (H := Json.string_arrays)
              Pages.plain_names Pages.when_zero ["0"] "0") as [Hactive _];
    [reflexivity | reflexivity | discriminate |].
  exact (Hactive Ha).
Defined.

Lemma determineActive_data_text_witness :
  attrs Pages.when_yes !! activeValue default_attributes = Some "yes"
  ∧ determineActive (H := Json.string_arrays) default_attributes Pages.when_yes
      (JStr <$> ["no"; "yes"]) = Some (JBool (intersects ["no"; "yes"] ["yes"])).
Proof.
  assert (Ha : attrs Pages.when_yes !! activeValue default_attributes
               = Some "yes") by (vm_compute; reflexivity).
  split; [exact Ha|].
  apply (determineActive_data_text (H := Json.string_arrays)
           default_attributes Pages.when_yes ["no"; "yes"] "yes");
    [reflexivity | reflexivity | exact Ha | | reflexivity].
  rewrite !not_elem_of_cons. repeat split; try discriminate.
  apply not_elem_of_nil.
Defined.

Lemma determineActive_data_set_witness :
  JSON_parse (JsonParser := Json.string_arrays) Pages.one_or_two
  = Some (JArr (JStr <$> ["1"; "2"]))
  ∧ determineActive (H := Json.string_arrays) default_attributes
      Pages.when_one_or_two (JStr <$> ["2"])
    = Some (JBool (intersects ["2"] ["1"; "2"])).
Proof.
  assert (Hparse : JSON_parse (JsonParser := Json.string_arrays)
                     Pages.one_or_two = Some (JArr (JStr <$> ["1"; "2"])))
    by (vm_compute; reflexivity).
  split; [exact Hparse|].
  apply (determineActive_data_set (H := Json.string_arrays)
           default_attributes Pages.when_one_or_two ["2"] ["1"; "2"]
           Pages.one_or_two);
    [reflexivity | reflexivity | vm_compute; reflexivity
    | vm_compute; reflexivity | exact Hparse].
Defined.

(** ** Directives *)

(** X18.  A directive written as a name, an [=] and a value, neither
    of which holds an [=], is read back as that name and that value. *)
Theorem parse_round_trip (el : element) (marker n v : string) :
  no_equals n -> no_equals v ->
  parseToggleAttribute (JQ.set_attr marker (n ++ String "=" v)%string el)
    marker = Parsed n v.
Proof.
  intros Hn Hv. apply parse_name_value; [|done..].
  unfold JQ.set_attr. simpl. apply lookup_insert_eq.
Qed.

Lemma parse_round_trip_witness :
  no_equals "checked"
  ∧ parseToggleAttribute
      (JQ.set_attr "data-input-toggle-active-attribute" "checked=checked"
         Pages.shown)
      "data-input-toggle-active-attribute" = Parsed "checked" "checked".
Proof.
  assert (Hplain : no_equals "checked").
  { intros c Hc; vm_compute in Hc;
      repeat (apply elem_of_cons in Hc as [->|Hc]; [discriminate|]);
      by apply elem_of_nil in Hc. }
  split; [exact Hplain|].
  apply (parse_round_trip Pages.shown "data-input-toggle-active-attribute"
           "checked" "checked" Hplain Hplain).
Defined.
